(** * bgbye: the video job orchestrator of [server/server.py]

    A shallow embedding of the video part of the background-removal
    service: the job registry [processing_status], the orchestrator
    [process_video] with its [try / except / finally], the per-frame step
    [process_frame], the admission endpoint [remove_background_video], the
    status endpoint [get_status] and the retention loop
    [cleanup_old_videos].

    Everything the program obtains from outside itself (subprocess exit
    codes and output, the segmentation models, the image codec, the clock)
    is read from an explicit record, so each definition is a function that
    can be evaluated on a concrete scenario. *)

From Stdlib Require Import ZArith Ascii String List Lia Sorted.
From stdpp Require Import base option list gmap strings fin_maps.

Open Scope string_scope.
Open Scope Z_scope.

(** ** Python text operations used by the server

    Texts are sequences of ASCII characters; characters above 127 are
    outside what these definitions describe. *)

Module Py.

(** [str.isspace] restricted to ASCII: TAB..CR, FS..US and SPACE. *)
Definition isspace (c : ascii) : bool :=
  let n := Ascii.N_of_ascii c in
  ((9 <=? n) && (n <=? 13) || (28 <=? n) && (n <=? 32))%N.

Fixpoint lstrip (s : string) : string :=
  match s with
  | String c s' => if isspace c then lstrip s' else s
  | EmptyString => EmptyString
  end.

Definition rstrip (s : string) : string :=
  String.rev (lstrip (String.rev s)).

(** [s.strip()] *)
Definition strip (s : string) : string := rstrip (lstrip s).

(** [s.endswith(suffix)] *)
Definition endswith (s suffix : string) : bool :=
  String.prefix (String.rev suffix) (String.rev s).

Definition digit (c : ascii) : option Z :=
  let n := Ascii.N_of_ascii c in
  if ((48 <=? n) && (n <=? 57))%N then Some (Z.of_N n - 48) else None.

(** Decimal digits with single underscores allowed between digits;
    [prev] tells whether the previous character was a digit. *)
Fixpoint digits (acc : Z) (prev : bool) (s : string) : option Z :=
  match s with
  | EmptyString => if prev then Some acc else None
  | String c s' =>
      match digit c with
      | Some d => digits (10 * acc + d) true s'
      | None =>
          if (Ascii.eqb c "_" && prev)%bool then digits acc false s' else None
      end
  end.

Definition hexdigit (n : N) : ascii :=
  Ascii.ascii_of_N (if (n <? 10)%N then 48 + n else 87 + n)%N.

Definition dquote : ascii := Ascii.ascii_of_N 34.
Definition squote : ascii := Ascii.ascii_of_N 39.
Definition backslash : ascii := Ascii.ascii_of_N 92.

Fixpoint contains (c : ascii) (s : string) : bool :=
  match s with
  | EmptyString => false
  | String c' s' => Ascii.eqb c c' || contains c s'
  end.

Fixpoint repr_body (q : ascii) (s : string) : string :=
  match s with
  | EmptyString => EmptyString
  | String c s' =>
      let n := Ascii.N_of_ascii c in
      let rest := repr_body q s' in
      if (Ascii.eqb c q || Ascii.eqb c backslash)%bool then
        String backslash (String c rest)
      else if (n =? 9)%N then String backslash (String "t" rest)
      else if (n =? 10)%N then String backslash (String "n" rest)
      else if (n =? 13)%N then String backslash (String "r" rest)
      else if ((n <? 32) || (n =? 127))%N then
        String backslash
          (String "x" (String (hexdigit (n / 16)) (String (hexdigit (n mod 16)) rest)))
      else String c rest
  end.

(** [repr(s)] of an ASCII string: single quotes unless the text has a
    single quote and no double quote. *)
Definition repr (s : string) : string :=
  let q := if (contains squote s && negb (contains dquote s))%bool
           then dquote else squote in
  String q (repr_body q s ++ String q EmptyString).

End Py.

(** ** Exceptions and outcomes of a block of statements *)

Record exn := Exn { exn_class : string; exn_msg : string }.

(** [str(e)] *)
Definition str_exn (e : exn) : string := exn_msg e.

(** [int(s)] for a text [s]: surrounding white space, one optional sign,
    decimal digits.  The interpreter's optional cap on the number of
    digits is not part of the model. *)
Definition py_int (s : string) : Z + exn :=
  let t := Py.strip s in
  let bad := Exn "ValueError"
               ("invalid literal for int() with base 10: " ++ Py.repr s) in
  match t with
  | String "+" t' => match Py.digits 0 false t' with Some n => inl n | None => inr bad end
  | String "-" t' => match Py.digits 0 false t' with Some n => inl (- n) | None => inr bad end
  | _ => match Py.digits 0 false t with Some n => inl n | None => inr bad end
  end.

(** ** Values stored in the registry *)

(** The values the server puts in a status record.  [VRatio k n] stands
    for the float [k / n * 100] computed after frame [k] of [n]. *)
Inductive pyval :=
| VStr (s : string)
| VInt (n : Z)
| VRatio (k n : nat).

Global Instance pyval_eq_dec : EqDecision pyval.
Proof. solve_decision. Defined.

(** A status record is a Python dict with string keys. *)
Abbreviation record := (gmap string pyval).

(** ** Outcomes and the state-and-exception monad *)

Inductive outcome (A : Type) :=
| Normal (a : A)        (* fell off the end of the block *)
| Returned              (* executed [return] *)
| Raised (e : exn).     (* an exception is propagating *)
Arguments Normal {A} a.
Arguments Returned {A}.
Arguments Raised {A} e.

Definition M (S A : Type) : Type := S -> S * outcome A.

Definition ret {S A} (a : A) : M S A := fun s => (s, Normal a).
Definition bind {S A B} (c : M S A) (k : A -> M S B) : M S B :=
  fun s =>
    match c s with
    | (s', Normal a) => k a s'
    | (s', Returned) => (s', Returned)
    | (s', Raised e) => (s', Raised e)
    end.
Definition raise {S A} (e : exn) : M S A := fun s => (s, Raised e).
Definition return_ {S A} : M S A := fun s => (s, Returned).
Definition gets {S A} (f : S -> A) : M S A := fun s => (s, Normal (f s)).
Definition modify {S} (f : S -> S) : M S unit := fun s => (f s, Normal tt).
Definition of_sum {S A} (r : A + exn) : M S A :=
  match r with inl a => ret a | inr e => raise e end.

Declare Scope py_scope.
Delimit Scope py_scope with py.
Notation "x <- c1 ;; c2" := (bind c1 (fun x => c2))
  (at level 100, c1 at next level, right associativity) : py_scope.
Notation "c1 ;; c2" := (bind c1 (fun _ => c2))
  (at level 100, right associativity) : py_scope.

(** [try: body  except Exception as e: handler e  finally: fin].
    A [return] in the body still runs [fin]; when [fin] itself raises,
    that exception replaces whatever the body or the handler left. *)
Definition try_except_finally {S} (body : M S unit) (handler : exn -> M S unit)
    (fin : M S unit) : M S unit :=
  fun s =>
    let '(s1, o1) := body s in
    let '(s2, o2) := match o1 with
                     | Raised e => handler e s1
                     | _ => (s1, o1)
                     end in
    let '(s3, o3) := fin s2 in
    match o3 with
    | Normal _ => (s3, o2)
    | _ => (s3, o3)
    end.

(** ** The working storage on disk *)

Definition TEMP_VIDEOS_DIR : string := "temp_videos".

(** [os.path.join a b] on POSIX. *)
Definition os_path_join (a b : string) : string :=
  if String.prefix "/" b then b
  else if (String.eqb a "" || Py.endswith a "/")%bool then a ++ b
  else a ++ "/" ++ b.

Definition FRAMES_DIR : string := os_path_join TEMP_VIDEOS_DIR "frames".

(** A directory of regular files: name to bytes. *)
Abbreviation directory := (gmap string string).

(** The layout the server keeps under [TEMP_VIDEOS_DIR]: the uploaded and
    encoded videos as regular files, and the directory [frames] with one
    directory of frame images per job.  [fs_frames = None] when the
    directory [frames] itself is absent.  Paths are addressed by their
    components: a video file by its name, a job's directory by the job
    identifier, a frame by both. *)
Record filesystem := Filesystem {
  fs_videos : directory;
  fs_frames : option (gmap string directory)
}.

Definition job_dir (fs : filesystem) (video_id : string) : option directory :=
  d ← fs_frames fs; d !! video_id.

Definition set_job_dir (video_id : string) (d : directory) (fs : filesystem) : filesystem :=
  {| fs_videos := fs_videos fs;
     fs_frames := Some (<[video_id := d]> (default ∅ (fs_frames fs))) |}.

Definition del_job_dir (video_id : string) (fs : filesystem) : filesystem :=
  {| fs_videos := fs_videos fs;
     fs_frames := delete video_id <$> fs_frames fs |}.

Definition set_video (name data : string) (fs : filesystem) : filesystem :=
  {| fs_videos := <[name := data]> (fs_videos fs); fs_frames := fs_frames fs |}.

(** [os.path.exists] of a path directly under [TEMP_VIDEOS_DIR]. *)
Definition os_path_exists (fs : filesystem) (path : string) : bool :=
  existsb (fun name => String.eqb (os_path_join TEMP_VIDEOS_DIR name) path)
          (map fst (map_to_list (fs_videos fs)))
  || (String.eqb FRAMES_DIR path && bool_decide (is_Some (fs_frames fs))).

Definition no_such_file (path : string) : exn :=
  Exn "FileNotFoundError" ("[Errno 2] No such file or directory: " ++ Py.repr path).

(** ** The process-wide state *)

Inductive event :=
| EvExec (argv : list string)                 (* a subprocess was started *)
| EvStatus (video_id : string) (r : record)   (* a registry entry was written *)
| EvSegment (method frame_path : string).     (* a segmentation model ran *)

Record state := State {
  processing_status : gmap string record;   (* the registry *)
  disk : filesystem;
  inspyrenet_on_gpu : bool;                 (* device of [inspyrenet_model.model] *)
  log : list event                          (* what happened, oldest first *)
}.

Definition with_status (f : gmap string record -> gmap string record) (s : state) : state :=
  {| processing_status := f (processing_status s); disk := disk s;
     inspyrenet_on_gpu := inspyrenet_on_gpu s; log := log s |}.
Definition with_disk (f : filesystem -> filesystem) (s : state) : state :=
  {| processing_status := processing_status s; disk := f (disk s);
     inspyrenet_on_gpu := inspyrenet_on_gpu s; log := log s |}.
Definition with_gpu (b : bool) (s : state) : state :=
  {| processing_status := processing_status s; disk := disk s;
     inspyrenet_on_gpu := b; log := log s |}.
Definition with_event (e : event) (s : state) : state :=
  {| processing_status := processing_status s; disk := disk s;
     inspyrenet_on_gpu := inspyrenet_on_gpu s; log := log s ++ [e] |}.

(** ** What the outside world answers during one job *)

(** Bytes captured from a subprocess, seen through [.decode()]. *)
Inductive captured :=
| Text (s : string)
| Undecodable (why : string).

Definition decode (b : captured) : string + exn :=
  match b with
  | Text s => inl s
  | Undecodable why => inr (Exn "UnicodeDecodeError" why)
  end.

(** [create_subprocess_exec] followed by [communicate]. *)
Inductive spawned :=
| SpawnError (e : exn)
| Exited (returncode : Z) (stdout stderr : captured).

Record World := {
  w_cuda : option exn;                       (* [inspyrenet_model.model.cuda()] *)
  w_probe : spawned;                         (* ffprobe packet count *)
  w_makedirs : option exn;                   (* [os.makedirs(frames_dir)] *)
  w_extract : spawned;                       (* ffmpeg, video to frames *)
  w_extract_files : list (string * string);  (* files it leaves in the job directory *)
  w_image_open : string -> string + exn;     (* [Image.open(..).convert('RGB')] *)
  w_bria : string -> string + exn;           (* [process_with_bria] *)
  w_inspyrenet : string -> string + exn;     (* [process_with_inspyrenet] *)
  w_rembg : string -> string -> string + exn;  (* [process_with_rembg], by model *)
  w_image_save : string -> string + exn;     (* PNG bytes written by [save] *)
  w_encode : spawned;                        (* ffmpeg, frames to video *)
  w_encode_file : option string              (* the output file it leaves, if any *)
}.

(** ** Primitive steps of [process_video] *)

(** The activation of [process_video]: the process-wide state and the one
    local variable whose binding matters, [frames_dir], unbound ([None])
    until its assignment is executed. *)
Record activation := Activation {
  glob : state;
  frames_dir_var : option string
}.

Definition on_state (f : state -> state) : M activation unit :=
  modify (fun a => {| glob := f (glob a); frames_dir_var := frames_dir_var a |}).

Definition assign_frames_dir (path : string) : M activation unit :=
  modify (fun a => {| glob := glob a; frames_dir_var := Some path |}).

Definition unbound_frames_dir : exn :=
  Exn "UnboundLocalError"
      "cannot access local variable 'frames_dir' where it is not associated with a value".

(** Reading the local [frames_dir]. *)
Definition read_frames_dir : M activation string :=
  fun a =>
    match frames_dir_var a with
    | Some path => (a, Normal path)
    | None => (a, Raised unbound_frames_dir)
    end.

(** [inspyrenet_model.model.cuda()] *)
Definition model_cuda (w : World) : M activation unit :=
  match w_cuda w with
  | Some e => raise e
  | None => on_state (with_gpu true)
  end.

(** [inspyrenet_model.model.cpu()] followed by [torch.cuda.empty_cache()];
    both calls are taken to succeed. *)
Definition model_cpu : M activation unit := on_state (with_gpu false).

(** [processing_status[video_id] = r] *)
Definition set_status (video_id : string) (r : record) : M activation unit :=
  on_state (fun s => with_event (EvStatus video_id r) (with_status <[video_id := r]> s)).

(** [await asyncio.create_subprocess_exec] on the words of [argv], then
    [await process.communicate()]. *)
Definition create_subprocess_exec (argv : list string) (r : spawned)
    : M activation (Z * captured * captured) :=
  (on_state (with_event (EvExec argv)) ;;
   match r with
   | SpawnError e => raise e
   | Exited returncode stdout stderr => ret (returncode, stdout, stderr)
   end)%py.

(** [os.makedirs(frames_dir, exist_ok=True)] *)
Definition os_makedirs (w : World) (video_id : string) : M activation unit :=
  match w_makedirs w with
  | Some e => raise e
  | None =>
      on_state (with_disk (fun fs =>
        match job_dir fs video_id with
        | Some _ => fs
        | None => set_job_dir video_id ∅ fs
        end))
  end.

(** Files a subprocess leaves in the job's directory, when it exists. *)
Definition write_frames (video_id : string) (files : list (string * string))
    (fs : filesystem) : filesystem :=
  match job_dir fs video_id with
  | Some d => set_job_dir video_id (foldl (fun d '(name, data) => <[name := data]> d) d files) fs
  | None => fs
  end.

(** [os.listdir(frames_dir)] *)
Definition os_listdir (video_id frames_dir : string) : M activation (list string) :=
  fun a =>
    match job_dir (disk (glob a)) video_id with
    | Some d => (a, Normal (map fst (map_to_list d)))
    | None => (a, Raised (no_such_file frames_dir))
    end.

(** Reading the bytes of one frame file. *)
Definition read_frame (video_id frame_file frame_path : string) : M activation string :=
  fun a =>
    match job_dir (disk (glob a)) video_id ≫= (fun d => d !! frame_file) with
    | Some data => (a, Normal data)
    | None => (a, Raised (no_such_file frame_path))
    end.

(** Writing the bytes of one frame file. *)
Definition write_frame (video_id frame_file frame_path data : string) : M activation unit :=
  fun a =>
    match job_dir (disk (glob a)) video_id with
    | Some d =>
        on_state (with_disk (set_job_dir video_id (<[frame_file := data]> d))) a
    | None => (a, Raised (no_such_file frame_path))
    end.

(** [os.remove(os.path.join(frames_dir, file))] *)
Definition os_remove (video_id file path : string) : M activation unit :=
  fun a =>
    match job_dir (disk (glob a)) video_id with
    | Some d =>
        match d !! file with
        | Some _ => on_state (with_disk (set_job_dir video_id (delete file d))) a
        | None => (a, Raised (no_such_file path))
        end
    | None => (a, Raised (no_such_file path))
    end.

(** [os.rmdir(frames_dir)] *)
Definition os_rmdir (video_id frames_dir : string) : M activation unit :=
  fun a =>
    match job_dir (disk (glob a)) video_id with
    | Some d =>
        if decide (d = ∅) then on_state (with_disk (del_job_dir video_id)) a
        else (a, Raised (Exn "OSError"
                ("[Errno 39] Directory not empty: " ++ Py.repr frames_dir)))
    | None => (a, Raised (no_such_file frames_dir))
    end.

(** [sorted] on a list of names. *)
Fixpoint insert_sorted (x : string) (l : list string) : list string :=
  match l with
  | [] => [x]
  | y :: l' => if String.leb x y then x :: l else y :: insert_sorted x l'
  end.

Definition sorted (l : list string) : list string := foldr insert_sorted [] l.

(** ** [process_frame] and [process_video] *)

Definition rembg_models : list string :=
  ["u2net"; "u2net_human_seg"; "isnet-general-use"; "isnet-anime"].

Definition in_list (x : string) (l : list string) : bool :=
  existsb (String.eqb x) l.

(** Running one of the segmentation functions in a worker thread. *)
Definition to_thread (method frame_path : string) (r : string + exn) : M activation string :=
  (on_state (with_event (EvSegment method frame_path)) ;; of_sum r)%py.

Definition process_frame (w : World) (video_id frame_file frame_path method : string)
    : M activation string :=
  (bytes <- read_frame video_id frame_file frame_path ;;
   img <- of_sum (w_image_open w bytes) ;;
   if String.eqb method "bria" then
     to_thread method frame_path (w_bria w img)
   else if String.eqb method "inspyrenet" then
     to_thread method frame_path (w_inspyrenet w img)
   else if in_list method rembg_models then
     to_thread method frame_path (w_rembg w method img)
   else
     raise (Exn "ValueError" "Invalid method"))%py.

Definition processing (progress : pyval) (message : string) : record :=
  {[ "status" := VStr "processing"; "progress" := progress; "message" := VStr message ]}.

Definition processing_frame (progress : pyval) : record :=
  {[ "status" := VStr "processing"; "progress" := progress ]}.

Definition error (message : string) : record :=
  {[ "status" := VStr "error"; "message" := VStr message ]}.

Definition completed (output_path : string) : record :=
  {[ "status" := VStr "completed"; "output_path" := VStr output_path ]}.

(** [for i, frame_file in enumerate(frame_files): ...], from index [i]. *)
Fixpoint frame_loop (w : World) (video_id method frames_dir : string)
    (total_frames i : nat) (frame_files : list string) : M activation unit :=
  match frame_files with
  | [] => ret tt
  | frame_file :: rest =>
      (let frame_path := os_path_join frames_dir frame_file in
       processed_frame <- process_frame w video_id frame_file frame_path method ;;
       png <- of_sum (w_image_save w processed_frame) ;;
       write_frame video_id frame_file frame_path png ;;
       set_status video_id (processing_frame (VRatio (i + 1) total_frames)) ;;
       frame_loop w video_id method frames_dir total_frames (S i) rest)%py
  end.

Definition output_name (video_id : string) : string :=
  "output_" ++ video_id ++ ".webm".

Definition frame_count_command (video_path : string) : list string :=
  ["ffmpeg.ffprobe"; "-v"; "error"; "-select_streams"; "v:0"; "-count_packets";
   "-show_entries"; "stream=nb_read_packets"; "-of"; "csv=p=0"; video_path].

Definition extract_command (video_path frames_dir : string) : list string :=
  ["ffmpeg"; "-i"; video_path; frames_dir ++ "/frame_%05d.png"].

Definition create_video_command (frames_dir output_path : string) : list string :=
  ["ffmpeg"; "-framerate"; "24"; "-i"; frames_dir ++ "/frame_%05d.png";
   "-c:v"; "libvpx-vp9"; "-pix_fmt"; "yuva420p"; "-lossless"; "1"; output_path].

(** [return] after recording a stage failure, when [failed] holds. *)
Definition fail_if (failed : bool) (stderr : captured) (video_id message : string)
    : M activation unit :=
  (if failed then
     (_ <- of_sum (decode stderr) ;;        (* the text put in the log line *)
      set_status video_id (error message) ;;
      return_)
   else ret tt)%py.

(** The [try] block. *)
Definition process_video_body (w : World) (video_path method video_id : string)
    : M activation unit :=
  ((if String.eqb method "inspyrenet" then model_cuda w else ret tt) ;;
   set_status video_id (processing (VInt 0) "Initializing") ;;
   p <- create_subprocess_exec (frame_count_command video_path) (w_probe w) ;;
   let '(returncode, stdout, stderr) := p in
   fail_if (negb (returncode =? 0)) stderr video_id "Error counting frames" ;;
   text <- of_sum (decode stdout) ;;
   frame_count <- of_sum (py_int (Py.strip text)) ;;
   (if frame_count >? 250 then
      (set_status video_id (error "Video too long (max 250 frames)") ;;
       return_)
    else ret tt) ;;
   let frames_dir := os_path_join FRAMES_DIR video_id in
   assign_frames_dir frames_dir ;;
   os_makedirs w video_id ;;
   set_status video_id (processing (VInt 0) "Extracting frames") ;;
   p <- create_subprocess_exec (extract_command video_path frames_dir) (w_extract w) ;;
   let '(returncode, stdout, stderr) := p in
   on_state (with_disk (write_frames video_id (w_extract_files w))) ;;
   fail_if (negb (returncode =? 0)) stderr video_id "Error extracting frames" ;;
   set_status video_id (processing (VInt 0) "Removing background") ;;
   names <- os_listdir video_id frames_dir ;;
   let frame_files := sorted (filter (fun f => Py.endswith f ".png" = true) names) in
   let total_frames := length frame_files in
   (if (total_frames =? 0)%nat then
      (set_status video_id (error "No frames were extracted from the video") ;;
       return_)
    else ret tt) ;;
   frame_loop w video_id method frames_dir total_frames 0 frame_files ;;
   set_status video_id (processing (VInt 100) "Encoding video") ;;
   let output_path := os_path_join TEMP_VIDEOS_DIR (output_name video_id) in
   p <- create_subprocess_exec (create_video_command frames_dir output_path) (w_encode w) ;;
   let '(returncode, stdout, stderr) := p in
   on_state (with_disk (fun fs =>
     match w_encode_file w with
     | Some data => set_video (output_name video_id) data fs
     | None => fs
     end)) ;;
   fail_if (negb (returncode =? 0)) stderr video_id "Error creating output video" ;;
   set_status video_id (completed output_path))%py.

(** The [except Exception as e] block. *)
Definition process_video_except (method video_id : string) (e : exn) : M activation unit :=
  (set_status video_id (error (str_exn e)) ;;
   if String.eqb method "inspyrenet" then model_cpu else ret tt)%py.

Fixpoint remove_all (video_id frames_dir : string) (files : list string) : M activation unit :=
  match files with
  | [] => ret tt
  | file :: rest =>
      (os_remove video_id file (os_path_join frames_dir file) ;;
       remove_all video_id frames_dir rest)%py
  end.

(** The [finally] block. *)
Definition process_video_finally (method video_id : string) : M activation unit :=
  (frames_dir <- read_frames_dir ;;
   files <- os_listdir video_id frames_dir ;;
   remove_all video_id frames_dir files ;;
   os_rmdir video_id frames_dir ;;
   if String.eqb method "inspyrenet" then model_cpu else ret tt)%py.

Definition process_video (w : World) (video_path method video_id : string) (s : state)
    : state * outcome unit :=
  let '(a, o) :=
    try_except_finally
      (process_video_body w video_path method video_id)
      (process_video_except method video_id)
      (process_video_finally method video_id)
      {| glob := s; frames_dir_var := None |} in
  (glob a, o).

(** ** The HTTP endpoints *)

Inductive response :=
| JSON (body : record)                               (* a dict, sent as JSON *)
| FileResponse (path media_type filename : string)
| HTTPException (status_code : Z) (detail : string)
| Uncaught (e : exn).

(** [GET /status/{video_id}] *)
Definition get_status (video_id : string) (s : state) : response :=
  match processing_status s !! video_id with
  | None => HTTPException 404 "Video ID not found"
  | Some status =>
      match status !! "status" with
      | None => Uncaught (Exn "KeyError" "'status'")
      | Some st =>
          if decide (st = VStr "completed") then
            match status !! "output_path" with
            | Some (VStr output_path) =>
                if os_path_exists (disk s) output_path then
                  FileResponse output_path "video/webm"
                    ("processed_video_" ++ video_id ++ ".webm")
                else HTTPException 404 "Processed video file not found"
            | Some _ => Uncaught (Exn "TypeError" "output_path is not a path")
            | None => Uncaught (Exn "KeyError" "'output_path'")
            end
          else JSON status
      end
  end.

(** What one upload request brings with it. *)
Record Upload := {
  u_uuid4 : string;            (* [str(uuid.uuid4())] *)
  u_open : option exn;         (* [open(file_path, "wb")] *)
  u_read : string + exn        (* [await file.read()] *)
}.

(** A call handed to [background_tasks.add_task]: the function is always
    [process_video], with these arguments. *)
Record task := Task { t_video_path : string; t_method : string; t_video_id : string }.

(** The activation of the admission handler: the process-wide state and
    the request's [background_tasks]. *)
Record request := Request {
  srv : state;
  background_tasks : list task
}.

Definition input_name (video_id : string) : string :=
  "input_" ++ video_id ++ ".mp4".

Definition remove_background_video_body (u : Upload) (method : string) : M request record :=
  (let video_id := u_uuid4 u in
   let filename := input_name video_id in
   let file_path := os_path_join TEMP_VIDEOS_DIR filename in
   match u_open u with
   | Some e => raise e
   | None =>
       modify (fun r => {| srv := with_disk (set_video filename "") (srv r);
                           background_tasks := background_tasks r |})
   end ;;
   content <- of_sum (u_read u) ;;
   modify (fun r => {| srv := with_disk (set_video filename content) (srv r);
                       background_tasks := background_tasks r |}) ;;
   present <- gets (fun r => os_path_exists (disk (srv r)) file_path) ;;
   (if negb present then
      raise (Exn "HTTPException" ("500: Failed to create video file: " ++ file_path))
    else ret tt) ;;
   modify (fun r => {| srv := srv r;
                       background_tasks := background_tasks r ++
                         [{| t_video_path := file_path; t_method := method;
                             t_video_id := video_id |}] |}) ;;
   ret ({[ "video_id" := VStr video_id ]} : record))%py.

(** [POST /remove_background_video/]: the state when the response is
    sent, the response, and the tasks left to run after it. *)
Definition remove_background_video (u : Upload) (method : string) (s : state)
    : state * response * list task :=
  match remove_background_video_body u method {| srv := s; background_tasks := [] |} with
  | (r, Normal body) => (srv r, JSON body, background_tasks r)
  | (r, Returned) => (srv r, JSON ∅, background_tasks r)
  | (r, Raised e) =>
      (srv r, HTTPException 500 ("Error in video processing: " ++ str_exn e), [])
  end.

(** Running a scheduled task once the response has been sent. *)
Definition run_task (w : World) (t : task) (s : state) : state * outcome unit :=
  process_video w (t_video_path t) (t_method t) (t_video_id t) s.

(** ** The retention loop *)

(** One wake of the loop: the clock, the modification times the system
    reports (both in microseconds), and the entries that some other
    actor removes after the directory has been listed and before the
    loop looks at them. *)
Record Wake := {
  k_now : Z;
  k_mtime : string -> Z;
  k_vanished : list string
}.

Definition ten_minutes : Z := 10 * 60 * 1000000.

(** [os.listdir(TEMP_VIDEOS_DIR)] *)
Definition listdir_top (fs : filesystem) : list string :=
  map fst (map_to_list (fs_videos fs)) ++
  (if bool_decide (is_Some (fs_frames fs) ∧ fs_videos fs !! "frames" = None)
   then ["frames"] else []).

Definition isfile_top (fs : filesystem) (item : string) : bool :=
  bool_decide (is_Some (fs_videos fs !! item)).

Definition isdir_top (fs : filesystem) (item : string) : bool :=
  (String.eqb item "frames" && bool_decide (is_Some (fs_frames fs)))
  && negb (isfile_top fs item).

(** Removing one top-level entry, whatever it is. *)
Definition vanish (item : string) (fs : filesystem) : filesystem :=
  if isfile_top fs item then
    {| fs_videos := delete item (fs_videos fs); fs_frames := fs_frames fs |}
  else if isdir_top fs item then
    {| fs_videos := fs_videos fs; fs_frames := None |}
  else fs.

(** [os.path.getmtime(item_path)] *)
Definition os_path_getmtime (k : Wake) (item item_path : string) : M filesystem Z :=
  fun fs =>
    if (isfile_top fs item || isdir_top fs item)%bool
    then (fs, Normal (k_mtime k item))
    else (fs, Raised (no_such_file item_path)).

(** [os.remove(item_path)] *)
Definition os_remove_top (item item_path : string) : M filesystem unit :=
  fun fs =>
    if isfile_top fs item
    then ({| fs_videos := delete item (fs_videos fs); fs_frames := fs_frames fs |}, Normal tt)
    else (fs, Raised (no_such_file item_path)).

(** [shutil.rmtree(item_path)] *)
Definition shutil_rmtree (item item_path : string) : M filesystem unit :=
  fun fs =>
    if isdir_top fs item
    then ({| fs_videos := fs_videos fs; fs_frames := None |}, Normal tt)
    else (fs, Raised (no_such_file item_path)).

(** The body of [for item in os.listdir(TEMP_VIDEOS_DIR)]. *)
Definition sweep_item (k : Wake) (item : string) : M filesystem unit :=
  (let item_path := os_path_join TEMP_VIDEOS_DIR item in
   item_modified <- os_path_getmtime k item item_path ;;
   if k_now k - item_modified >? ten_minutes then
     is_file <- gets (fun fs => isfile_top fs item) ;;
     if is_file then os_remove_top item item_path
     else
       is_dir <- gets (fun fs => isdir_top fs item) ;;
       if is_dir then shutil_rmtree item item_path else ret tt
   else ret tt)%py.

Fixpoint sweep_items (k : Wake) (items : list string) : M filesystem unit :=
  match items with
  | [] => ret tt
  | item :: rest => (sweep_item k item ;; sweep_items k rest)%py
  end.

(** One iteration of [while True], up to the [asyncio.sleep]. *)
Definition sweep (k : Wake) : M filesystem unit :=
  (items <- gets listdir_top ;;
   modify (fun fs => foldr vanish fs (k_vanished k)) ;;
   sweep_items k items)%py.


(** ** Concrete scenarios *)

Definition newline : string := String (Ascii.ascii_of_N 10) "".

(** A two-frame video for which every external step succeeds. *)
Definition two_frames : World := {|
  w_cuda := None;
  w_probe := Exited 0 (Text ("2" ++ newline)) (Text "");
  w_makedirs := None;
  w_extract := Exited 0 (Text "") (Text "");
  w_extract_files := [("frame_00001.png", "f1"); ("frame_00002.png", "f2")];
  w_image_open := fun bytes => inl ("rgb:" ++ bytes);
  w_bria := fun img => inl ("bria:" ++ img);
  w_inspyrenet := fun img => inl ("inspyrenet:" ++ img);
  w_rembg := fun model img => inl (model ++ ":" ++ img);
  w_image_save := fun img => inl ("png:" ++ img);
  w_encode := Exited 0 (Text "") (Text "");
  w_encode_file := Some "webm"
|}.

Definition with_probe (p : spawned) (w : World) : World := {|
  w_cuda := w_cuda w; w_probe := p; w_makedirs := w_makedirs w;
  w_extract := w_extract w; w_extract_files := w_extract_files w;
  w_image_open := w_image_open w; w_bria := w_bria w;
  w_inspyrenet := w_inspyrenet w; w_rembg := w_rembg w;
  w_image_save := w_image_save w; w_encode := w_encode w;
  w_encode_file := w_encode_file w
|}.

Definition with_extract (p : spawned) (files : list (string * string)) (w : World) : World := {|
  w_cuda := w_cuda w; w_probe := w_probe w; w_makedirs := w_makedirs w;
  w_extract := p; w_extract_files := files;
  w_image_open := w_image_open w; w_bria := w_bria w;
  w_inspyrenet := w_inspyrenet w; w_rembg := w_rembg w;
  w_image_save := w_image_save w; w_encode := w_encode w;
  w_encode_file := w_encode_file w
|}.

(** The probe exits with code 1. *)
Definition probe_exits_1 : World :=
  with_probe (Exited 1 (Text "") (Text "moov atom not found")) two_frames.

(** The probe succeeds and prints something that is not a number. *)
Definition probe_prints_na : World :=
  with_probe (Exited 0 (Text ("N/A" ++ newline)) (Text "")) two_frames.

(** The probe counts 300 packets. *)
Definition probe_counts_300 : World :=
  with_probe (Exited 0 (Text ("300" ++ newline)) (Text "")) two_frames.

(** Extraction exits with code 1 and leaves nothing. *)
Definition extract_exits_1 : World :=
  with_extract (Exited 1 (Text "") (Text "Invalid data found")) [] two_frames.

(** The server just after the upload of job [j1] has been stored. *)
Definition idle : state := {|
  processing_status := ∅;
  disk := {| fs_videos := {[ "input_j1.mp4" := "mp4" ]}; fs_frames := Some ∅ |};
  inspyrenet_on_gpu := false;
  log := []
|}.

Definition j1_path : string := "temp_videos/input_j1.mp4".

(** A server that has seen no job yet, and the upload that becomes job
    [j1]. *)
Definition fresh_server : state := {|
  processing_status := ∅;
  disk := {| fs_videos := ∅; fs_frames := Some ∅ |};
  inspyrenet_on_gpu := false;
  log := []
|}.

Definition upload_j1 : Upload := {|
  u_uuid4 := "j1"; u_open := None; u_read := inl "mp4"
|}.

(** The state changes of the first and last lines of [process_video] for
    methods that use the accelerator, and of one registry write. *)
Definition acquire (method : string) (s : state) : state :=
  if String.eqb method "inspyrenet" then with_gpu true s else s.

Definition release (method : string) (s : state) : state :=
  if String.eqb method "inspyrenet" then with_gpu false s else s.

Definition record_status (video_id : string) (r : record) (s : state) : state :=
  with_event (EvStatus video_id r) (with_status <[video_id := r]> s).

(** One field of a job's record. *)
Definition field (key video_id : string) (s : state) : option pyval :=
  r ← processing_status s !! video_id; r !! key.

(** The state in which the probe's result is examined. *)
Definition probed (video_path method video_id : string) (s : state) : state :=
  with_event (EvExec (frame_count_command video_path))
    (record_status video_id (processing (VInt 0) "Initializing") (acquire method s)).

(** ** What one run of [process_video] may change *)

(** The four shapes of record the orchestrator writes. *)
Definition record_shape (r : record) : Prop :=
  (exists p msg, r = processing p msg) \/
  (exists p, r = processing_frame p) \/
  (exists msg, r = error msg) \/
  (exists path, r = completed path).

Definition written_by_job (video_id : string) (ev : event) : Prop :=
  match ev with
  | EvStatus v r => v = video_id /\ record_shape r
  | _ => True
  end.

Definition is_error (video_id : string) (s : state) : Prop :=
  exists msg, processing_status s !! video_id = Some (error msg).

Definition is_completed (video_id : string) (s : state) : Prop :=
  exists path, processing_status s !! video_id = Some (completed path).

Definition bound (a : activation) : Prop := is_Some (frames_dir_var a).

Definition anyhow (a : activation) : Prop := True.

(** How an activation may differ from an earlier one: video files only
    at the job's output name, frame directories only at the job's own,
    and that one only once [frames_dir] is bound, which it then stays;
    the log only grows, by writes of this job. *)
Record evolves (video_id : string) (a a' : activation) : Prop := {
  ev_videos : forall name, name <> output_name video_id ->
    fs_videos (disk (glob a')) !! name = fs_videos (disk (glob a)) !! name;
  ev_others : forall other, other <> video_id ->
    job_dir (disk (glob a')) other = job_dir (disk (glob a)) other;
  ev_var : frames_dir_var a' = None -> frames_dir_var a = None;
  ev_unbound : frames_dir_var a' = None ->
    job_dir (disk (glob a')) video_id = job_dir (disk (glob a)) video_id;
  ev_log : exists evs,
    log (glob a') = (log (glob a) ++ evs)%list /\ Forall (written_by_job video_id) evs
}.

(** A step of the [try] block: from an activation satisfying [P] it
    leaves one reached by [evolves], satisfying [P'] when the step
    completes, and holding an error record when the step executes
    [return]. *)
Definition step {A} (video_id : string) (P : activation -> Prop) (c : M activation A)
    (P' : activation -> Prop) : Prop :=
  forall a, P a ->
    evolves video_id a (c a).1 /\
    match (c a).2 with
    | Normal _ => P' (c a).1
    | Returned => is_error video_id (glob (c a).1)
    | Raised _ => True
    end.

(** The whole [try] block: completing it leaves a completed record. *)
Definition ends {A} (video_id : string) (P : activation -> Prop) (c : M activation A) : Prop :=
  forall a, P a ->
    evolves video_id a (c a).1 /\
    match (c a).2 with
    | Normal _ => is_completed video_id (glob (c a).1)
    | Returned => is_error video_id (glob (c a).1)
    | Raised _ => True
    end.

(** What the [finally] block may change between two states: nothing in
    the registry, the video files, the other jobs' frame directories or
    the log. *)
Record cleans (video_id : string) (s s' : state) : Prop := {
  cl_registry : processing_status s' = processing_status s;
  cl_videos : fs_videos (disk s') = fs_videos (disk s);
  cl_others : forall other, other <> video_id ->
    job_dir (disk s') other = job_dir (disk s) other;
  cl_log : log s' = log s
}.

(** How the probe can fail, with the message the registry then holds. *)
Inductive probe_fails (w : World) : string -> Prop :=
| nonzero_exit rc out msg :
    w_probe w = Exited rc out (Text msg) -> rc <> 0 ->
    probe_fails w "Error counting frames"
| unparsable out err e :
    w_probe w = Exited 0 (Text out) err -> py_int (Py.strip out) = inr e ->
    probe_fails w (str_exn e).

(** The probe reports more than 250 frames. *)
Inductive gate_rejects (w : World) : Prop :=
| too_long out err n :
    w_probe w = Exited 0 (Text out) err -> py_int (Py.strip out) = inl n ->
    n > 250 -> gate_rejects w.

(** Steps that leave the disk and [frames_dir] alone and never
    [return]. *)
Definition inert {A} (video_id : string) (c : M activation A) : Prop :=
  forall a,
    frames_dir_var (c a).1 = frames_dir_var a /\
    disk (glob (c a).1) = disk (glob a) /\
    (exists evs, log (glob (c a).1) = (log (glob a) ++ evs)%list /\
                 Forall (written_by_job video_id) evs) /\
    (c a).2 <> Returned.

(** Predicates that only look at the binding of [frames_dir]. *)
Definition var_only (P : activation -> Prop) : Prop :=
  forall a a', frames_dir_var a' = frames_dir_var a -> P a -> P a'.

(** The methods [process_frame] accepts. *)
Definition supported (method : string) : bool :=
  String.eqb method "bria" || String.eqb method "inspyrenet" || in_list method rembg_models.

(** The state in which the frame loop starts, for a method other than
    [inspyrenet]. *)
Definition before_frames (w : World) (video_path video_id : string) (s : state) : state :=
  record_status video_id (processing (VInt 0) "Removing background")
    (with_disk (write_frames video_id (w_extract_files w))
       (with_event (EvExec (extract_command video_path (os_path_join FRAMES_DIR video_id)))
          (record_status video_id (processing (VInt 0) "Extracting frames")
             (with_disk (fun fs => match job_dir fs video_id with
                                   | Some _ => fs
                                   | None => set_job_dir video_id ∅ fs
                                   end)
                (with_event (EvExec (frame_count_command video_path))
                   (record_status video_id (processing (VInt 0) "Initializing") s)))))).

(** A top-level entry that is there. *)
Definition present (fs : filesystem) (item : string) : Prop :=
  isfile_top fs item = true \/ isdir_top fs item = true.

(** Two videos in the working directory, and two wakes of the retention
    loop.  At the first wake everything is one second old and
    [input_a.mp4] disappears after the listing; at the second, an hour
    later, nothing disappears. *)
Definition janitor_disk : filesystem := {|
  fs_videos := {[ "input_a.mp4" := "a"; "output_old.webm" := "b" ]};
  fs_frames := Some ∅
|}.


Definition second_wake : Wake := {|
  k_now := 4600 * 1000000;
  k_mtime := fun _ => 999 * 1000000;
  k_vanished := []
|}.

(** ** The single-image endpoint *)

(** What one image request brings with it: the bytes read from the
    upload, and how the installed framework renders an [HTTPException]
    as text, given its status code and detail. *)
Record ImageUpload := {
  i_read : string + exn;                 (* [await file.read()] *)
  i_http_str : Z -> string -> string     (* [str(HTTPException(code, detail))] *)
}.

Inductive image_reply :=
| ImageResponse (content media_type : string)
| ImageHTTPException (status_code : Z) (detail : string).

(** The [try] block of [remove_background]. *)
Definition remove_background_body (w : World) (u : ImageUpload) (method : string)
    : M state string :=
  (bytes <- of_sum (i_read u) ;;
   image <- of_sum (w_image_open w bytes) ;;
   no_bg_image <-
     (if String.eqb method "bria" then of_sum (w_bria w image)
      else if String.eqb method "inspyrenet" then
        (match w_cuda w with
         | Some e => raise e
         | None => modify (with_gpu true)
         end ;;
         r <- of_sum (w_inspyrenet w image) ;;
         modify (with_gpu false) ;;
         ret r)
      else if in_list method rembg_models then of_sum (w_rembg w method image)
      else raise (Exn "HTTPException" (i_http_str u 400 "Invalid method"))) ;;
   content <- of_sum (w_image_save w no_bg_image) ;;
   ret content)%py.

(** [POST /remove_background/] *)
Definition remove_background (w : World) (u : ImageUpload) (method : string) (s : state)
    : state * image_reply :=
  match remove_background_body w u method s with
  | (s', Normal content) => (s', ImageResponse content "image/png")
  | (s', Returned) => (s', ImageResponse "" "image/png")
  | (s', Raised e) => (s', ImageHTTPException 500 (str_exn e))
  end.

(** The image a request's method produces from [image]: the answer of
    the one model that the chain of tests in [remove_background]
    selects. *)
Inductive segmented_by (w : World) (method image out : string) : Prop :=
| by_bria :
    method = "bria" -> w_bria w image = inl out -> segmented_by w method image out
| by_inspyrenet :
    method = "inspyrenet" -> w_cuda w = None -> w_inspyrenet w image = inl out ->
    segmented_by w method image out
| by_rembg :
    in_list method rembg_models = true -> w_rembg w method image = inl out ->
    segmented_by w method image out.

(** How storing an upload can fail. *)
Inductive upload_fails (u : Upload) : exn -> Prop :=
| open_fails e : u_open u = Some e -> upload_fails u e
| read_fails e : u_open u = None -> u_read u = inr e -> upload_fails u e.

(** A framework that renders an [HTTPException] as ["code: detail"], an
    image upload, and an upload whose body cannot be read. *)
Definition image_upload : ImageUpload := {|
  i_read := inl "jpeg";
  i_http_str := fun code detail => (if code =? 400 then "400" else "500") ++ ": " ++ detail
|}.

Definition broken_upload : Upload := {|
  u_uuid4 := "j2"; u_open := None;
  u_read := inr (Exn "ClientDisconnect" "client went away")
|}.

(** A world in which the inspyrenet model runs out of memory. *)
Definition inspyrenet_fails : World := {|
  w_cuda := None; w_probe := w_probe two_frames; w_makedirs := None;
  w_extract := w_extract two_frames; w_extract_files := w_extract_files two_frames;
  w_image_open := w_image_open two_frames; w_bria := w_bria two_frames;
  w_inspyrenet := fun _ => inr (Exn "RuntimeError" "CUDA out of memory");
  w_rembg := w_rembg two_frames; w_image_save := w_image_save two_frames;
  w_encode := w_encode two_frames; w_encode_file := w_encode_file two_frames
|}.

(** ** What a sweep removes *)

(** The age test of the retention loop. *)
Definition expired (k : Wake) (item : string) : bool :=
  k_now k - k_mtime k item >? ten_minutes.

(** A wake at which the output of job [j1] is an hour old. *)
Definition late_wake : Wake := {|
  k_now := 4600 * 1000000;
  k_mtime := fun item => if String.eqb item "output_j1.webm" then 1000 * 1000000
                         else 4599 * 1000000;
  k_vanished := []
|}.

(** A wake at which everything is exactly ten minutes old. *)
Definition boundary_wake : Wake := {|
  k_now := 1600 * 1000000;
  k_mtime := fun _ => 1000 * 1000000;
  k_vanished := []
|}.



(** ** What a job leaves alone *)

(** How an activation may differ from an earlier one of the same job in
    what is shared with other jobs and requests: registry entries of
    other identifiers are as they were, the inspyrenet model is where
    it was unless the method is [inspyrenet], and [frames_dir] is as it
    was or bound to the job's own directory. *)
Definition apart (video_id method : string) (a a' : activation) : Prop :=
  (forall other, other <> video_id ->
     processing_status (glob a') !! other = processing_status (glob a) !! other) /\
  (String.eqb method "inspyrenet" = false ->
     inspyrenet_on_gpu (glob a') = inspyrenet_on_gpu (glob a)) /\
  (frames_dir_var a' = frames_dir_var a \/
   frames_dir_var a' = Some (os_path_join FRAMES_DIR video_id)).

Definition keeps {A} (R : activation -> activation -> Prop) (c : M activation A) : Prop :=
  forall a, R a (c a).1.

(** Steps that touch neither the registry, nor the model, nor
    [frames_dir]. *)
Definition silent {A} (c : M activation A) : Prop :=
  forall a,
    processing_status (glob (c a).1) = processing_status (glob a) /\
    inspyrenet_on_gpu (glob (c a).1) = inspyrenet_on_gpu (glob a) /\
    frames_dir_var (c a).1 = frames_dir_var a.


(** ** A run in which every stage succeeds *)


(** The disk once [os.makedirs] and the extraction have had their
    effects. *)
Definition extracted_disk (w : World) (video_id : string) (fs : filesystem) : filesystem :=
  write_frames video_id (w_extract_files w)
    (match job_dir fs video_id with
     | Some _ => fs
     | None => set_job_dir video_id ∅ fs
     end).

(** The value of [frame_files] at line 191. *)
Definition frame_names (w : World) (video_id : string) (fs : filesystem) : list string :=
  match job_dir (extracted_disk w video_id fs) video_id with
  | Some d => sorted (filter (fun f => Py.endswith f ".png" = true) (map fst (map_to_list d)))
  | None => []
  end.







(** The probe succeeds and reports at most 250 frames; for method
    [inspyrenet] the model could be moved to the GPU. *)
Record passes_gate (w : World) (method : string) : Prop := {
  pg_cuda : method = "inspyrenet" -> w_cuda w = None;
  pg_probe : exists out err n,
    w_probe w = Exited 0 (Text out) err /\ py_int (Py.strip out) = inl n /\ n <= 250
}.




Definition makedirs_fails : World := {|
  w_cuda := None; w_probe := w_probe two_frames;
  w_makedirs := Some (Exn "PermissionError" "[Errno 13] Permission denied");
  w_extract := w_extract two_frames; w_extract_files := w_extract_files two_frames;
  w_image_open := w_image_open two_frames; w_bria := w_bria two_frames;
  w_inspyrenet := w_inspyrenet two_frames; w_rembg := w_rembg two_frames;
  w_image_save := w_image_save two_frames; w_encode := w_encode two_frames;
  w_encode_file := w_encode_file two_frames
|}.

Definition cuda_fails : World := {|
  w_cuda := Some (Exn "RuntimeError" "No CUDA GPUs are available");
  w_probe := w_probe two_frames; w_makedirs := None;
  w_extract := w_extract two_frames; w_extract_files := w_extract_files two_frames;
  w_image_open := w_image_open two_frames; w_bria := w_bria two_frames;
  w_inspyrenet := w_inspyrenet two_frames; w_rembg := w_rembg two_frames;
  w_image_save := w_image_save two_frames; w_encode := w_encode two_frames;
  w_encode_file := w_encode_file two_frames
|}.

(** Extraction exits with code 0 and leaves no frame. *)
Definition extract_leaves_nothing : World :=
  with_extract (Exited 0 (Text "") (Text "")) [] two_frames.

(** A world in which the first extracted frame cannot be opened as an
    image and the second can. *)
Definition first_frame_broken : World := {|
  w_cuda := None; w_probe := w_probe two_frames; w_makedirs := None;
  w_extract := w_extract two_frames; w_extract_files := w_extract_files two_frames;
  w_image_open := fun bytes =>
    if String.eqb bytes "f1" then inr (Exn "UnidentifiedImageError" "cannot identify image file")
    else inl ("rgb:" ++ bytes);
  w_bria := w_bria two_frames; w_inspyrenet := w_inspyrenet two_frames;
  w_rembg := w_rembg two_frames; w_image_save := w_image_save two_frames;
  w_encode := w_encode two_frames; w_encode_file := w_encode_file two_frames
|}.

(** The state once the extraction has run and left its files. *)
Definition after_extraction (w : World) (video_path method video_id : string) (s : state)
    : state :=
  with_disk (write_frames video_id (w_extract_files w))
    (with_event (EvExec (extract_command video_path (os_path_join FRAMES_DIR video_id)))
       (record_status video_id (processing (VInt 0) "Extracting frames")
          (with_disk (fun fs => match job_dir fs video_id with
                                | Some _ => fs
                                | None => set_job_dir video_id ∅ fs
                                end)
             (probed video_path method video_id s)))).

(** ** Where in a run a record is written *)

(** Whether the last thing that happened, by a piece of the log, is a
    model's run on a frame. *)
Definition after_segment (evs : list event) : bool :=
  match last evs with
  | Some (EvSegment _ _) => true
  | _ => false
  end.

(** The same, read from the front, for a piece of the log that follows
    one for which the answer was [seg]. *)
Fixpoint seg_after (seg : bool) (evs : list event) : bool :=
  match evs with
  | [] => seg
  | EvSegment _ _ :: rest => seg_after true rest
  | _ :: rest => seg_after false rest
  end.

(** The records by the statement that writes them: at the start of a
    stage, with an integer [progress] and a [message]; after a frame,
    with the computed percentage and nothing else; on a failure; at
    the end. *)
Definition stage_record (r : record) : Prop := exists z msg, r = processing (VInt z) msg.
Definition frame_record (r : record) : Prop := exists k n, r = processing_frame (VRatio k n).
Definition error_record (r : record) : Prop := exists msg, r = error msg.
Definition completed_record (r : record) : Prop := exists path, r = completed path.

(** A piece of the log in which every registry write is this job's and
    is of the kind its place allows: right after a model's run on a
    frame, the record of that frame or of a failure; anywhere else, the
    record of a stage, of a failure or of the completion. *)
Fixpoint placed (video_id : string) (seg : bool) (evs : list event) : Prop :=
  match evs with
  | [] => True
  | EvSegment _ _ :: rest => placed video_id true rest
  | EvExec _ :: rest => placed video_id false rest
  | EvStatus v r :: rest =>
      v = video_id /\
      (error_record r \/
       if seg then frame_record r else stage_record r \/ completed_record r) /\
      placed video_id false rest
  end.

(** Statements whose log entries are so placed, from [seg] to [seg']
    when they complete. *)
Definition walks {A} (video_id : string) (seg : bool) (c : M activation A) (seg' : bool)
    : Prop :=
  forall a, exists evs,
    log (glob (c a).1) = (log (glob a) ++ evs)%list /\
    placed video_id seg evs /\
    match (c a).2 with
    | Normal _ => seg_after seg evs = seg'
    | _ => True
    end.

(** Statements that add nothing to the log. *)
Definition quiet {A} (c : M activation A) : Prop :=
  forall a, log (glob (c a).1) = log (glob a).

(** * Properties *)

(** ** Text operations on examples *)

Example py_int_250 : py_int "250" = inl 250.
Proof. reflexivity. Qed.

Example py_int_underscore : py_int "1_000" = inl 1000.
Proof. reflexivity. Qed.

Example py_int_not_a_number :
  py_int "N/A" = inr (Exn "ValueError" "invalid literal for int() with base 10: 'N/A'").
Proof. reflexivity. Qed.

Example py_int_double_underscore : exists e, py_int "1__0" = inr e.
Proof. eexists. reflexivity. Qed.

Example strip_newline : Py.strip (" 12 " ++ newline) = "12".
Proof. reflexivity. Qed.

Example endswith_png :
  Py.endswith "frame_00001.png" ".png" = true /\ Py.endswith "png" ".png" = false.
Proof. split; reflexivity. Qed.

Example sorted_names : sorted ["frame_00002.png"; "frame_00010.png"; "frame_00001.png"]
  = ["frame_00001.png"; "frame_00002.png"; "frame_00010.png"].
Proof. reflexivity. Qed.

(** ** The early exits of [process_video] *)

Ltac run :=
  cbv [process_video try_except_finally process_video_body process_video_except
       process_video_finally bind ret raise return_ gets modify of_sum on_state
       set_status model_cuda model_cpu create_subprocess_exec fail_if decode
       read_frames_dir assign_frames_dir glob frames_dir_var
       acquire release record_status probed str_exn].

(** A non-zero exit code of the probe: the failure is recorded, and the
    [finally] block then fails on its unbound [frames_dir]. *)
Lemma run_probe_nonzero w video_path method video_id s rc out msg :
  (method = "inspyrenet" -> w_cuda w = None) ->
  w_probe w = Exited rc out (Text msg) ->
  rc <> 0 ->
  process_video w video_path method video_id s =
    (record_status video_id (error "Error counting frames")
       (probed video_path method video_id s),
     Raised unbound_frames_dir).
Proof.
  intros Hcuda Hprobe Hrc.
  assert (Hne : negb (rc =? 0) = true) by (apply negb_true_iff, Z.eqb_neq; exact Hrc).
  run. destruct (String.eqb method "inspyrenet") eqn:E.
  - apply String.eqb_eq in E. rewrite (Hcuda E), Hprobe, Hne. reflexivity.
  - rewrite Hprobe, Hne. reflexivity.
Qed.

(** A count above 250: same shape, with the other message. *)
Lemma run_too_long w video_path method video_id s out err n :
  (method = "inspyrenet" -> w_cuda w = None) ->
  w_probe w = Exited 0 (Text out) err ->
  py_int (Py.strip out) = inl n ->
  n > 250 ->
  process_video w video_path method video_id s =
    (record_status video_id (error "Video too long (max 250 frames)")
       (probed video_path method video_id s),
     Raised unbound_frames_dir).
Proof.
  intros Hcuda Hprobe Hint Hn.
  assert (Hgt : (n >? 250) = true) by (apply Z.gtb_lt; lia).
  run. destruct (String.eqb method "inspyrenet") eqn:E.
  - apply String.eqb_eq in E. rewrite (Hcuda E), Hprobe. simpl.
    rewrite Hint, Hgt. reflexivity.
  - rewrite Hprobe. simpl. rewrite Hint, Hgt. reflexivity.
Qed.

(** Output that [int] rejects: the [except] block records the
    description of the [ValueError] and releases the accelerator; the
    [finally] block fails as above. *)
Lemma run_unparsable w video_path method video_id s out err e :
  (method = "inspyrenet" -> w_cuda w = None) ->
  w_probe w = Exited 0 (Text out) err ->
  py_int (Py.strip out) = inr e ->
  process_video w video_path method video_id s =
    (release method
       (record_status video_id (error (exn_msg e))
          (probed video_path method video_id s)),
     Raised unbound_frames_dir).
Proof.
  intros Hcuda Hprobe Hint.
  run. destruct (String.eqb method "inspyrenet") eqn:E.
  - apply String.eqb_eq in E. rewrite (Hcuda E), Hprobe. simpl.
    rewrite Hint. reflexivity.
  - rewrite Hprobe. simpl. rewrite Hint. reflexivity.
Qed.

(** ** Directory operations *)

Lemma job_dir_set_same v d fs : job_dir (set_job_dir v d fs) v = Some d.
Proof. unfold job_dir, set_job_dir. simpl. apply lookup_insert_eq. Qed.

Lemma job_dir_set_other v d fs o : o <> v -> job_dir (set_job_dir v d fs) o = job_dir fs o.
Proof.
  intros Hne. unfold job_dir, set_job_dir. simpl.
  rewrite lookup_insert_ne by congruence.
  destruct (fs_frames fs); simpl; [reflexivity | apply lookup_empty].
Qed.

Lemma job_dir_del_same v fs : job_dir (del_job_dir v fs) v = None.
Proof.
  unfold job_dir, del_job_dir. simpl.
  destruct (fs_frames fs); simpl; [apply lookup_delete_eq | reflexivity].
Qed.

Lemma job_dir_del_other v fs o : o <> v -> job_dir (del_job_dir v fs) o = job_dir fs o.
Proof.
  intros Hne. unfold job_dir, del_job_dir. simpl.
  destruct (fs_frames fs); simpl; [apply lookup_delete_ne; congruence | reflexivity].
Qed.

Lemma job_dir_set_video name data fs o : job_dir (set_video name data fs) o = job_dir fs o.
Proof. reflexivity. Qed.

Lemma write_frames_other v files fs o :
  o <> v -> job_dir (write_frames v files fs) o = job_dir fs o.
Proof.
  intros Hne. unfold write_frames.
  destruct (job_dir fs v); [apply job_dir_set_other; exact Hne | reflexivity].
Qed.

Lemma write_frames_videos v files fs : fs_videos (write_frames v files fs) = fs_videos fs.
Proof. unfold write_frames. destruct (job_dir fs v); reflexivity. Qed.

(** ** One run of [process_video], step by step *)

Section Run.

Variable w : World.
Variables video_path method video_id : string.

Lemma evolves_refl a : evolves video_id a a.
Proof.
  split; try reflexivity; auto.
  exists []. split; [symmetry; apply app_nil_r | constructor].
Qed.

Lemma evolves_trans a b c :
  evolves video_id a b -> evolves video_id b c -> evolves video_id a c.
Proof.
  intros [V1 O1 B1 U1 [l1 [L1 F1]]] [V2 O2 B2 U2 [l2 [L2 F2]]]. split.
  - intros name Hn. rewrite V2, V1; auto.
  - intros o Ho. rewrite O2, O1; auto.
  - auto.
  - intros Hc. rewrite U2, U1; auto.
  - exists (l1 ++ l2)%list. split.
    + rewrite L2, L1. symmetry. apply app_assoc.
    + apply Forall_app; auto.
Qed.

Lemma var_only_bound : var_only bound.
Proof. intros a a' E. unfold bound. rewrite E. auto. Qed.

Lemma var_only_anyhow : var_only anyhow.
Proof. intros a a' _ _. exact I. Qed.

Lemma inert_step {A} (c : M activation A) P :
  var_only P -> inert video_id c -> step video_id P c P.
Proof.
  intros HP Hc a Ha. destruct (Hc a) as (Hv & Hd & Hl & Hr). split.
  - split.
    + intros. rewrite Hd. reflexivity.
    + intros. rewrite Hd. reflexivity.
    + intros Hn. rewrite <- Hv. exact Hn.
    + intros. rewrite Hd. reflexivity.
    + exact Hl.
  - destruct (c a).2; [eapply HP; eauto | congruence | exact I].
Qed.

Lemma step_bind {A B} (c : M activation A) (k : A -> M activation B) P P1 P2 :
  step video_id P c P1 -> (forall x, step video_id P1 (k x) P2) ->
  step video_id P (bind c k) P2.
Proof.
  intros Hc Hk a Ha. specialize (Hc a Ha). unfold bind.
  destruct (c a) as [a1 [x| |e]]; simpl in Hc; destruct Hc as [E1 Q1].
  - destruct (Hk x a1 Q1) as [E2 Q2]. split; [eapply evolves_trans; eauto | exact Q2].
  - simpl. auto.
  - simpl. auto.
Qed.

Lemma ends_bind {A B} (c : M activation A) (k : A -> M activation B) P P1 :
  step video_id P c P1 -> (forall x, ends video_id P1 (k x)) ->
  ends video_id P (bind c k).
Proof.
  intros Hc Hk a Ha. specialize (Hc a Ha). unfold bind.
  destruct (c a) as [a1 [x| |e]]; simpl in Hc; destruct Hc as [E1 Q1].
  - destruct (Hk x a1 Q1) as [E2 Q2]. split; [eapply evolves_trans; eauto | exact Q2].
  - simpl. auto.
  - simpl. auto.
Qed.

Lemma inert_ret {A} (x : A) : inert video_id (ret x).
Proof.
  intros a. simpl. repeat split; try discriminate.
  exists []. split; [symmetry; apply app_nil_r | constructor].
Qed.

Lemma inert_raise {A} e : inert video_id (raise e : M activation A).
Proof.
  intros a. simpl. repeat split; try discriminate.
  exists []. split; [symmetry; apply app_nil_r | constructor].
Qed.

Lemma inert_of_sum {A} (r : A + exn) : inert video_id (of_sum r).
Proof. destruct r; [apply inert_ret | apply inert_raise]. Qed.

Lemma inert_bind {A B} (c : M activation A) (k : A -> M activation B) :
  inert video_id c -> (forall x, inert video_id (k x)) -> inert video_id (bind c k).
Proof.
  intros Hc Hk a. destruct (Hc a) as (Hv & Hd & (l1 & Hl & Hf) & Hr). unfold bind.
  destruct (c a) as [a1 [x| |e]]; simpl in *.
  - destruct (Hk x a1) as (Hv2 & Hd2 & (l2 & Hl2 & Hf2) & Hr2).
    repeat split; try congruence.
    exists (l1 ++ l2)%list. split.
    + rewrite Hl2, Hl. symmetry. apply app_assoc.
    + apply Forall_app; auto.
  - congruence.
  - repeat split; eauto; discriminate.
Qed.

Lemma inert_gpu b : inert video_id (on_state (with_gpu b)).
Proof.
  intros a. simpl. repeat split; try discriminate.
  exists []. split; [symmetry; apply app_nil_r | constructor].
Qed.

Lemma inert_model_cuda : inert video_id (model_cuda w).
Proof. unfold model_cuda. destruct (w_cuda w); [apply inert_raise | apply inert_gpu]. Qed.

Lemma inert_set_status r : record_shape r -> inert video_id (set_status video_id r).
Proof.
  intros Hr a. simpl. repeat split; try discriminate.
  exists [EvStatus video_id r]. split; [reflexivity |].
  constructor; [split; [reflexivity | exact Hr] | constructor].
Qed.

Lemma inert_exec argv r : inert video_id (create_subprocess_exec argv r).
Proof.
  intros a. unfold create_subprocess_exec, bind. simpl.
  destruct r; simpl; (repeat split; try discriminate;
    exists [EvExec argv]; split; [reflexivity | repeat constructor]).
Qed.

Lemma inert_to_thread m p r : inert video_id (to_thread m p r).
Proof.
  intros a. unfold to_thread, bind. simpl.
  destruct r; simpl; (repeat split; try discriminate;
    exists [EvSegment m p]; split; [reflexivity | repeat constructor]).
Qed.

Lemma inert_read_frame f p : inert video_id (read_frame video_id f p).
Proof.
  intros a. unfold read_frame.
  destruct (job_dir (disk (glob a)) video_id ≫= _); simpl;
    (repeat split; try discriminate;
     exists []; split; [symmetry; apply app_nil_r | constructor]).
Qed.

Lemma inert_listdir p : inert video_id (os_listdir video_id p).
Proof.
  intros a. unfold os_listdir.
  destruct (job_dir (disk (glob a)) video_id); simpl;
    (repeat split; try discriminate;
     exists []; split; [symmetry; apply app_nil_r | constructor]).
Qed.

Lemma shape_processing p m : record_shape (processing p m).
Proof. left. eauto. Qed.
Lemma shape_frame p : record_shape (processing_frame p).
Proof. right. left. eauto. Qed.
Lemma shape_error m : record_shape (error m).
Proof. right. right. left. eauto. Qed.
Lemma shape_completed p : record_shape (completed p).
Proof. right. right. right. eauto. Qed.

Lemma inert_process_frame f p : inert video_id (process_frame w video_id f p method).
Proof.
  unfold process_frame.
  apply inert_bind; [apply inert_read_frame | intros bytes].
  apply inert_bind; [apply inert_of_sum | intros img].
  destruct (String.eqb method "bria"); [apply inert_to_thread |].
  destruct (String.eqb method "inspyrenet"); [apply inert_to_thread |].
  destruct (in_list method rembg_models); [apply inert_to_thread | apply inert_raise].
Qed.


(** The steps that write to the disk, once [frames_dir] is bound. *)
Lemma step_disk (f : filesystem -> filesystem) :
  (forall fs name, name <> output_name video_id ->
     fs_videos (f fs) !! name = fs_videos fs !! name) ->
  (forall fs other, other <> video_id -> job_dir (f fs) other = job_dir fs other) ->
  step video_id bound (on_state (with_disk f)) bound.
Proof.
  intros Hv Ho a Ha. simpl. split; [| exact Ha].
  split; simpl; auto.
  - intros Hn. destruct Ha as [p Hp]. congruence.
  - exists []. split; [symmetry; apply app_nil_r | constructor].
Qed.

Lemma step_raise {A} e P P' : step video_id P (raise e : M activation A) P'.
Proof. intros a _. simpl. split; [apply evolves_refl | exact I]. Qed.

Lemma step_assign p : step video_id anyhow (assign_frames_dir p) bound.
Proof.
  intros a _. simpl. split; [| eexists; reflexivity].
  split; simpl; try reflexivity; try discriminate.
  exists []. split; [symmetry; apply app_nil_r | constructor].
Qed.

Lemma step_makedirs : step video_id bound (os_makedirs w video_id) bound.
Proof.
  unfold os_makedirs. destruct (w_makedirs w); [apply step_raise |].
  apply step_disk.
  - intros fs name _. destruct (job_dir fs video_id); reflexivity.
  - intros fs o Ho. destruct (job_dir fs video_id); [reflexivity |].
    apply job_dir_set_other, Ho.
Qed.

Lemma step_write_frames files :
  step video_id bound (on_state (with_disk (write_frames video_id files))) bound.
Proof.
  apply step_disk.
  - intros fs name _. rewrite write_frames_videos. reflexivity.
  - intros fs o Ho. apply write_frames_other, Ho.
Qed.

Lemma step_write_frame f p data :
  step video_id bound (write_frame video_id f p data) bound.
Proof.
  intros a Ha. unfold write_frame.
  destruct (job_dir (disk (glob a)) video_id) as [d|] eqn:E.
  - apply (step_disk (set_job_dir video_id (<[f:=data]> d))); auto.
    intros fs o Ho. apply job_dir_set_other, Ho.
  - apply (step_raise (no_such_file p) bound bound a Ha).
Qed.

Lemma step_encode_file :
  step video_id bound
    (on_state (with_disk (fun fs =>
       match w_encode_file w with
       | Some data => set_video (output_name video_id) data fs
       | None => fs
       end))) bound.
Proof.
  apply step_disk.
  - intros fs name Hn. destruct (w_encode_file w); [| reflexivity].
    simpl. apply lookup_insert_ne. congruence.
  - intros fs o _. destruct (w_encode_file w); reflexivity.
Qed.

(** Recording an error and returning. *)
Lemma step_give_up {A} msg P P' :
  step video_id P
    (bind (set_status video_id (error msg)) (fun _ => return_ : M activation A)) P'.
Proof.
  intros a _. simpl. split.
  - split; simpl; auto.
    exists [EvStatus video_id (error msg)]. split; [reflexivity |].
    constructor; [split; [reflexivity | apply shape_error] | constructor].
  - exists msg. simpl. apply lookup_insert_eq.
Qed.

Lemma step_fail_if failed stderr msg P :
  var_only P -> step video_id P (fail_if failed stderr video_id msg) P.
Proof.
  intros HP. unfold fail_if. destruct failed.
  - destruct stderr as [t | why]; simpl.
    + apply (step_bind (ret t) _ P P P).
      * apply inert_step; [exact HP | apply inert_ret].
      * intros _. apply step_give_up.
    + apply (step_bind (raise _) _ P P P); [apply step_raise |].
      intros _. apply step_give_up.
  - apply inert_step; [exact HP | apply inert_ret].
Qed.

Lemma step_frame_loop frames_dir total files :
  forall i, step video_id bound (frame_loop w video_id method frames_dir total i files) bound.
Proof.
  induction files as [| f rest IH]; intros i; simpl.
  - apply inert_step; [apply var_only_bound | apply inert_ret].
  - eapply step_bind; [apply inert_step; [apply var_only_bound | apply inert_process_frame] |].
    intros img.
    eapply step_bind; [apply inert_step; [apply var_only_bound | apply inert_of_sum] |].
    intros png.
    eapply step_bind; [apply step_write_frame |]. intros _.
    eapply step_bind; [apply inert_step;
      [apply var_only_bound | apply inert_set_status, shape_frame] |].
    intros _. apply IH.
Qed.

Lemma ends_completed path P :
  ends video_id P (set_status video_id (completed path)).
Proof.
  intros a _. simpl. split.
  - split; simpl; auto.
    exists [EvStatus video_id (completed path)]. split; [reflexivity |].
    constructor; [split; [reflexivity | apply shape_completed] | constructor].
  - exists path. simpl. apply lookup_insert_eq.
Qed.

Ltac inert_step_tac P :=
  apply inert_step;
  [ exact P
  | first [ apply inert_set_status; first [apply shape_processing | apply shape_error]
          | apply inert_exec | apply inert_of_sum | apply inert_listdir
          | apply inert_ret | apply inert_model_cuda ] ].

Lemma ends_body : ends video_id anyhow (process_video_body w video_path method video_id).
Proof.
  unfold process_video_body.
  eapply ends_bind.
  { destruct (String.eqb method "inspyrenet"); inert_step_tac var_only_anyhow. }
  intros _. eapply ends_bind; [inert_step_tac var_only_anyhow |].
  intros _. eapply ends_bind; [inert_step_tac var_only_anyhow |].
  intros [[rc out] err].
  eapply ends_bind; [apply step_fail_if, var_only_anyhow |].
  intros _. eapply ends_bind; [inert_step_tac var_only_anyhow |].
  intros text. eapply ends_bind; [inert_step_tac var_only_anyhow |].
  intros n. eapply ends_bind.
  { destruct (n >? 250); [apply step_give_up | inert_step_tac var_only_anyhow]. }
  intros _. eapply ends_bind; [apply step_assign |].
  intros _. eapply ends_bind; [apply step_makedirs |].
  intros _. eapply ends_bind; [inert_step_tac var_only_bound |].
  intros _. eapply ends_bind; [inert_step_tac var_only_bound |].
  intros [[rc' out'] err'].
  eapply ends_bind; [apply step_write_frames |].
  intros _. eapply ends_bind; [apply step_fail_if, var_only_bound |].
  intros _. eapply ends_bind; [inert_step_tac var_only_bound |].
  intros _. eapply ends_bind; [inert_step_tac var_only_bound |].
  intros names. eapply ends_bind.
  { destruct (_ =? 0)%nat; [apply step_give_up | inert_step_tac var_only_bound]. }
  intros _. eapply ends_bind; [apply step_frame_loop |].
  intros _. eapply ends_bind; [inert_step_tac var_only_bound |].
  intros _. eapply ends_bind; [inert_step_tac var_only_bound |].
  intros [[rc2 out2] err2].
  eapply ends_bind; [apply step_encode_file |].
  intros _. eapply ends_bind; [apply step_fail_if, var_only_bound |].
  intros _. apply ends_completed.
Qed.


(** The [except] block records an error and completes. *)
Lemma except_spec e a :
  let r := process_video_except method video_id e a in
  evolves video_id a r.1 /\ is_error video_id (glob r.1) /\ r.2 = Normal tt.
Proof.
  unfold process_video_except, bind, model_cpu. simpl.
  destruct (String.eqb method "inspyrenet"); simpl.
  - split; [| split; [exists (str_exn e); simpl; apply lookup_insert_eq | reflexivity]].
    split; simpl; auto.
    exists [EvStatus video_id (error (str_exn e))]. split; [reflexivity |].
    constructor; [split; [reflexivity | apply shape_error] | constructor].
  - split; [| split; [exists (str_exn e); simpl; apply lookup_insert_eq | reflexivity]].
    split; simpl; auto.
    exists [EvStatus video_id (error (str_exn e))]. split; [reflexivity |].
    constructor; [split; [reflexivity | apply shape_error] | constructor].
Qed.

Lemma cleans_refl s : cleans video_id s s.
Proof. split; reflexivity. Qed.

Lemma cleans_trans s1 s2 s3 :
  cleans video_id s1 s2 -> cleans video_id s2 s3 -> cleans video_id s1 s3.
Proof.
  intros [R1 V1 O1 L1] [R2 V2 O2 L2]. split; try congruence.
  intros o Ho. rewrite O2, O1; auto.
Qed.

Lemma cleans_set_job_dir d s : cleans video_id s (with_disk (set_job_dir video_id d) s).
Proof. split; try reflexivity. intros o Ho. simpl. apply job_dir_set_other, Ho. Qed.

Lemma lookup_foldl_delete (l : list string) : forall (d : directory) x,
  foldl (fun d f => delete f d) d l !! x = if decide (x ∈ l) then None else d !! x.
Proof.
  induction l as [| f l IH]; intros d x; simpl.
  - reflexivity.
  - rewrite IH. destruct (decide (x ∈ l)) as [Hin | Hout].
    + rewrite decide_True by (right; exact Hin). reflexivity.
    + destruct (decide (x = f)) as [-> | Hne].
      * rewrite decide_True by left. apply lookup_delete_eq.
      * rewrite decide_False by (intros Hc; apply elem_of_cons in Hc; tauto).
        apply lookup_delete_ne. congruence.
Qed.

(** Removing the listed files one by one succeeds when they are all
    there, and touches nothing but the job's directory. *)
Lemma remove_all_spec frames_dir (files : list string) : forall (d : directory) a,
  job_dir (disk (glob a)) video_id = Some d ->
  NoDup files ->
  (forall f, f ∈ files -> is_Some (d !! f)) ->
  exists a', remove_all video_id frames_dir files a = (a', Normal tt) /\
    job_dir (disk (glob a')) video_id = Some (foldl (fun d f => delete f d) d files) /\
    frames_dir_var a' = frames_dir_var a /\
    inspyrenet_on_gpu (glob a') = inspyrenet_on_gpu (glob a) /\
    cleans video_id (glob a) (glob a').
Proof.
  induction files as [| f rest IH]; intros d a Hd Hnd Hall; simpl.
  - exists a. do 4 (split; [auto |]). apply cleans_refl.
  - inversion Hnd as [| ? ? Hnotin Hnd']; subst.
    destruct (Hall f) as [data Hf]; [left |].
    unfold bind, os_remove. rewrite Hd, Hf. simpl.
    set (a1 := {| glob := with_disk (set_job_dir video_id (delete f d)) (glob a);
                  frames_dir_var := frames_dir_var a |}).
    destruct (IH (delete f d) a1) as (a' & Hrun & Hdir & Hvar & Hgpu & Hcl).
    + simpl. apply job_dir_set_same.
    + exact Hnd'.
    + intros g Hg. rewrite lookup_delete_ne by (intros ->; contradiction).
      apply Hall. right. exact Hg.
    + exists a'. do 4 (split; [auto |]).
      eapply cleans_trans; [apply cleans_set_job_dir | exact Hcl].
Qed.

(** The [finally] block: it changes nothing outside the job's frame
    directory, and that directory is gone afterwards whenever it
    could only exist with [frames_dir] bound. *)
Lemma finally_spec a :
  let r := process_video_finally method video_id a in
  cleans video_id (glob a) (glob r.1) /\
  ((frames_dir_var a = None -> job_dir (disk (glob a)) video_id = None) ->
   job_dir (disk (glob r.1)) video_id = None) /\
  (bound a -> is_Some (job_dir (disk (glob a)) video_id) -> r.2 = Normal tt).
Proof.
  unfold process_video_finally, bind, read_frames_dir.
  destruct (frames_dir_var a) as [p |] eqn:Hvar; simpl.
  2: { split; [apply cleans_refl |]. split; [auto |].
       intros [q Hq]. unfold bound in Hq. congruence. }
  unfold os_listdir.
  destruct (job_dir (disk (glob a)) video_id) as [d |] eqn:Hd; simpl.
  2: { split; [apply cleans_refl |]. split; [auto |].
       intros _ [q Hq]. discriminate. }
  destruct (remove_all_spec p (map fst (map_to_list d)) d a Hd) as
    (a' & Hrun & Hdir & Hv & Hgpu & Hcl).
  { apply NoDup_fst_map_to_list. }
  { intros f Hf. apply list_elem_of_fmap in Hf as [[k v] [-> Hkv]].
    apply elem_of_map_to_list in Hkv. simpl. eauto. }
  rewrite Hrun. unfold os_rmdir. rewrite Hdir.
  assert (Hempty : foldl (fun d f => delete f d) d (map fst (map_to_list d)) = ∅).
  { apply map_eq. intros x. rewrite lookup_foldl_delete, lookup_empty.
    destruct (decide (x ∈ map fst (map_to_list d))) as [Hin | Hout]; [reflexivity |].
    destruct (d !! x) as [v |] eqn:Hx; [| reflexivity].
    exfalso. apply Hout. apply list_elem_of_fmap. exists (x, v). split; [reflexivity |].
    apply elem_of_map_to_list. exact Hx. }
  rewrite Hempty. rewrite decide_True by reflexivity. simpl.
  assert (Hdel : cleans video_id (glob a) (with_disk (del_job_dir video_id) (glob a'))).
  { eapply cleans_trans; [exact Hcl |]. split; try reflexivity.
    intros o Ho. simpl. apply job_dir_del_other, Ho. }
  destruct (String.eqb method "inspyrenet"); simpl.
  - split; [| split; [intros _; apply job_dir_del_same | reflexivity]].
    destruct Hdel as [R V O L]. split; simpl; auto.
  - split; [exact Hdel | split; [intros _; apply job_dir_del_same | reflexivity]].
Qed.

(** What holds when [process_video] is over, however it ends. *)
Lemma process_video_summary s :
  let s' := (process_video w video_path method video_id s).1 in
  (is_error video_id s' \/ is_completed video_id s') /\
  (forall name, name <> output_name video_id ->
     fs_videos (disk s') !! name = fs_videos (disk s) !! name) /\
  (forall other, other <> video_id -> job_dir (disk s') other = job_dir (disk s) other) /\
  (job_dir (disk s) video_id = None -> job_dir (disk s') video_id = None) /\
  exists evs, log s' = (log s ++ evs)%list /\ Forall (written_by_job video_id) evs.
Proof.
  unfold process_video, try_except_finally.
  set (a0 := {| glob := s; frames_dir_var := None |}).
  destruct (ends_body a0 I) as [E1 Q1].
  destruct (process_video_body w video_path method video_id a0) as [a1 o1].
  simpl in E1, Q1.
  assert (Hmid : exists a2 o2,
    (match o1 with
     | Raised e => process_video_except method video_id e a1
     | _ => (a1, o1)
     end) = (a2, o2) /\
    evolves video_id a0 a2 /\
    (is_error video_id (glob a2) \/ is_completed video_id (glob a2))).
  { destruct o1 as [x | | e].
    - exists a1, (Normal x). auto.
    - exists a1, Returned. auto.
    - destruct (except_spec e a1) as (E2 & Q2 & _).
      destruct (process_video_except method video_id e a1) as [a2 o2].
      exists a2, o2. split; [reflexivity |]. split; [| left; exact Q2].
      eapply evolves_trans; eauto. }
  destruct Hmid as (a2 & o2 & -> & E2 & T2).
  destruct (finally_spec a2) as ([R V O L] & Hgone & _).
  destruct (process_video_finally method video_id a2) as [a3 o3]. simpl in *.
  destruct E2 as [V2 O2 B2 U2 [evs [L2 F2]]]. simpl in *.
  destruct o3; simpl.
  all: (split; [unfold is_error, is_completed in *; rewrite R; exact T2 |]).
  all: (split; [intros name Hn; rewrite V; apply V2, Hn |]).
  all: (split; [intros o Ho; rewrite O by exact Ho; apply O2, Ho |]).
  all: (split; [intros Hs; apply Hgone; intros Hv; rewrite U2 by exact Hv; exact Hs |]).
  all: (exists evs; rewrite L; auto).
Qed.

End Run.

(** ** The claims about the early exits *)

(** C1 (the code departs from it) -- an exception does leave
    [process_video]: whenever the probe fails or the frame-count gate
    rejects the video, with any method, the [finally] block reads
    [frames_dir] before it was ever assigned, and the resulting
    [UnboundLocalError] propagates to the caller. *)
Theorem early_exit_escapes w video_path method video_id s :
  (method = "inspyrenet" -> w_cuda w = None) ->
  (exists msg, probe_fails w msg) \/ gate_rejects w ->
  (process_video w video_path method video_id s).2 = Raised unbound_frames_dir.
Proof.
  intros Hcuda [[msg Hfail] | Hgate].
  - destruct Hfail as [rc out m Hp Hrc | out err e Hp Hint].
    + erewrite run_probe_nonzero by eassumption. reflexivity.
    + erewrite run_unparsable by eassumption. reflexivity.
  - destruct Hgate as [out err n Hp Hint Hn].
    erewrite run_too_long by eassumption. reflexivity.
Qed.

Lemma early_exit_escapes_witness :
  (exists msg, probe_fails probe_exits_1 msg) /\
  (process_video probe_exits_1 j1_path "u2net" "j1" idle).2 = Raised unbound_frames_dir.
Proof.
  assert (H : exists msg, probe_fails probe_exits_1 msg).
  { exists "Error counting frames".
    apply (nonzero_exit probe_exits_1 1 (Text "") "moov atom not found");
      [reflexivity | lia]. }
  split; [exact H |].
  apply early_exit_escapes; [intros E; discriminate E | left; exact H].
Defined.

(** C2 (the code departs from it) -- with method [inspyrenet], when the
    probe exits with a non-zero code or the gate rejects the video, the
    model is still on the GPU when [process_video] is over: the release
    in the [finally] block comes after the statement that fails. *)
Theorem accelerator_held_after_early_return w video_path video_id s :
  w_cuda w = None ->
  (exists rc out msg, w_probe w = Exited rc out (Text msg) /\ rc <> 0) \/ gate_rejects w ->
  inspyrenet_on_gpu (process_video w video_path "inspyrenet" video_id s).1 = true.
Proof.
  intros Hcuda [(rc & out & msg & Hp & Hrc) | Hgate].
  - erewrite run_probe_nonzero by eauto. reflexivity.
  - destruct Hgate as [out err n Hp Hint Hn].
    erewrite run_too_long by eauto. reflexivity.
Qed.

Lemma accelerator_held_after_early_return_witness :
  w_cuda probe_exits_1 = None /\
  inspyrenet_on_gpu idle = false /\
  inspyrenet_on_gpu (process_video probe_exits_1 j1_path "inspyrenet" "j1" idle).1 = true.
Proof.
  split; [reflexivity |]. split; [reflexivity |].
  apply accelerator_held_after_early_return; [reflexivity |].
  left. exists 1, (Text ""), "moov atom not found". split; [reflexivity | lia].
Defined.

(** C4 -- when the probe reports more than 250 frames, the job's record
    becomes exactly [status = error] with message
    ["Video too long (max 250 frames)"]; between the start of the job
    and that record the only subprocess started is the probe, so no
    extraction is attempted; and the disk is as it was: no frame
    directory and no output file have been created. *)
Theorem frame_count_gate w video_path method video_id s :
  (method = "inspyrenet" -> w_cuda w = None) ->
  gate_rejects w ->
  let s' := (process_video w video_path method video_id s).1 in
  processing_status s' !! video_id = Some (error "Video too long (max 250 frames)") /\
  log s' = (log s ++ [EvStatus video_id (processing (VInt 0) "Initializing");
                      EvExec (frame_count_command video_path);
                      EvStatus video_id (error "Video too long (max 250 frames)")])%list /\
  disk s' = disk s.
Proof.
  intros Hcuda [out err n Hp Hint Hn]. simpl.
  erewrite run_too_long by eassumption. simpl.
  split; [apply lookup_insert_eq |].
  split; [| unfold acquire; destruct (String.eqb method "inspyrenet"); reflexivity].
  unfold acquire. rewrite <- !app_assoc.
  destruct (String.eqb method "inspyrenet"); reflexivity.
Qed.

Lemma frame_count_gate_witness :
  gate_rejects probe_counts_300 /\
  processing_status (process_video probe_counts_300 j1_path "u2net" "j1" idle).1 !! "j1"
    = Some (error "Video too long (max 250 frames)") /\
  disk (process_video probe_counts_300 j1_path "u2net" "j1" idle).1 = disk idle.
Proof.
  assert (H : gate_rejects probe_counts_300).
  { apply (too_long probe_counts_300 ("300" ++ newline) (Text "") 300);
      [reflexivity | reflexivity | lia]. }
  split; [exact H |].
  pose proof (frame_count_gate probe_counts_300 j1_path "u2net" "j1" idle
                (fun E => ltac:(discriminate E)) H) as (Hr & _ & Hd).
  split; [exact Hr | exact Hd].
Defined.

(** C5, the counterexample -- the probe exits with code 0 and prints
    ["N/A"], which [int] rejects; the record becomes an error, but its
    message is the description of the [ValueError], not
    ["Error counting frames"]. *)
Lemma unparsable_probe_output_message :
  w_probe probe_prints_na = Exited 0 (Text ("N/A" ++ newline)) (Text "") /\
  (exists e, py_int (Py.strip ("N/A" ++ newline)) = inr e) /\
  let s' := (process_video probe_prints_na j1_path "u2net" "j1" idle).1 in
  field "status" "j1" s' = Some (VStr "error") /\
  field "message" "j1" s' = Some (VStr "invalid literal for int() with base 10: 'N/A'") /\
  field "message" "j1" s' <> Some (VStr "Error counting frames").
Proof.
  split; [reflexivity |]. split; [eexists; reflexivity |].
  vm_compute. repeat split; discriminate.
Qed.

(** C5, as amended -- when the probe exits with a non-zero code (its
    diagnostics being decodable text), the job's record becomes exactly
    [status = error] with message ["Error counting frames"]; when it
    exits with code 0 and prints text that [int] rejects, the record
    becomes [status = error] with the description of that [ValueError]
    as message. *)
Theorem probe_failure_recorded w video_path method video_id s msg :
  (method = "inspyrenet" -> w_cuda w = None) ->
  probe_fails w msg ->
  processing_status (process_video w video_path method video_id s).1 !! video_id
    = Some (error msg).
Proof.
  intros Hcuda [rc out m Hp Hrc | out err e Hp Hint].
  - erewrite run_probe_nonzero by eassumption. simpl. apply lookup_insert_eq.
  - erewrite run_unparsable by eassumption. simpl.
    unfold release. destruct (String.eqb method "inspyrenet"); apply lookup_insert_eq.
Qed.

Lemma probe_failure_recorded_witness :
  probe_fails probe_exits_1 "Error counting frames" /\
  processing_status (process_video probe_exits_1 j1_path "u2net" "j1" idle).1 !! "j1"
    = Some (error "Error counting frames").
Proof.
  assert (H : probe_fails probe_exits_1 "Error counting frames").
  { apply (nonzero_exit probe_exits_1 1 (Text "") "moov atom not found");
      [reflexivity | lia]. }
  split; [exact H |].
  apply probe_failure_recorded; [intros E; discriminate E | exact H].
Defined.

(** ** The claims about the whole run *)

(** C3 -- for a job whose frame directory does not exist before the job
    starts (job identifiers are fresh), when [process_video] is over the
    job's record is an error or a completed record, the job's frame
    directory with everything in it is gone, every video file other
    than the job's own output is as it was, the input file in
    particular, the other jobs' frame directories are as they were, and
    the [finally] block by itself changes no video file, no other frame
    directory and no registry entry, from whatever state it starts. *)
Theorem frame_directory_reclaimed w video_path method video_id s :
  job_dir (disk s) video_id = None ->
  let s' := (process_video w video_path method video_id s).1 in
  (is_error video_id s' \/ is_completed video_id s') /\
  job_dir (disk s') video_id = None /\
  (forall name, name <> output_name video_id ->
     fs_videos (disk s') !! name = fs_videos (disk s) !! name) /\
  fs_videos (disk s') !! input_name video_id = fs_videos (disk s) !! input_name video_id /\
  (forall other, other <> video_id -> job_dir (disk s') other = job_dir (disk s) other) /\
  (forall a, cleans video_id (glob a) (glob (process_video_finally method video_id a).1)).
Proof.
  intros Hfresh.
  destruct (process_video_summary w video_path method video_id s)
    as (Hterm & Hvid & Hoth & Hgone & _).
  simpl. split; [exact Hterm |]. split; [apply Hgone, Hfresh |].
  split; [exact Hvid |]. split; [apply Hvid; discriminate |].
  split; [exact Hoth |]. intros a. apply (proj1 (finally_spec method video_id a)).
Qed.

Lemma frame_directory_reclaimed_witness :
  job_dir (disk idle) "j1" = None /\
  job_dir (disk (process_video two_frames j1_path "u2net" "j1" idle).1) "j1" = None /\
  fs_videos (disk (process_video two_frames j1_path "u2net" "j1" idle).1) !! input_name "j1"
    = Some "mp4".
Proof.
  split; [reflexivity |].
  pose proof (frame_directory_reclaimed two_frames j1_path "u2net" "j1" idle eq_refl)
    as (_ & Hgone & _ & Hin & _).
  split; [exact Hgone |]. rewrite Hin. reflexivity.
Defined.

(** C7, the counterexample -- the upload of job [j1] is admitted on a
    fresh server: the response carries the identifier and the task is
    scheduled, yet the registry has no entry for [j1] and a status query
    at that moment is answered with 404. *)
Lemma admitted_job_unknown_to_status :
  let '(s', resp, tasks) := remove_background_video upload_j1 "u2net" fresh_server in
  resp = JSON {[ "video_id" := VStr "j1" ]} /\
  tasks = [{| t_video_path := j1_path; t_method := "u2net"; t_video_id := "j1" |}] /\
  processing_status s' !! "j1" = None /\
  get_status "j1" s' = HTTPException 404 "Video ID not found".
Proof. vm_compute. repeat split. Qed.

(** C7, as amended -- admission leaves the registry exactly as it
    found it; the job's record is created by [process_video], so that
    once the scheduled task has run the registry holds a record for the
    identifier and a status query is no longer answered with
    "Video ID not found". *)
Theorem record_created_by_orchestrator :
  (forall u method s,
     processing_status (remove_background_video u method s).1.1 = processing_status s) /\
  (forall w video_path method video_id s,
     let s' := (process_video w video_path method video_id s).1 in
     is_Some (processing_status s' !! video_id) /\
     get_status video_id s' <> HTTPException 404 "Video ID not found").
Proof.
  split.
  - intros u method s. unfold remove_background_video, remove_background_video_body.
    cbv [bind modify gets of_sum ret raise].
    destruct (u_open u); simpl; [reflexivity |].
    destruct (u_read u); simpl; [| reflexivity].
    destruct (os_path_exists _ _); reflexivity.
  - intros w video_path method video_id s.
    destruct (process_video_summary w video_path method video_id s) as (Hterm & _).
    simpl. unfold get_status.
    destruct Hterm as [[msg Hr] | [path Hr]]; rewrite Hr; (split; [eauto |]).
    + simpl. discriminate.
    + assert (E : completed path !! "status" = Some (VStr "completed")) by reflexivity.
      assert (E' : completed path !! "output_path" = Some (VStr path)) by reflexivity.
      rewrite E, E'. rewrite decide_True by reflexivity.
      destruct (os_path_exists _ _); discriminate.
Qed.

(** ** Evaluating sequences of statements *)

Lemma bind_normal {S A B} (c : M S A) (k : A -> M S B) s s' x :
  c s = (s', Normal x) -> bind c k s = k x s'.
Proof. intros H. unfold bind. rewrite H. reflexivity. Qed.

Lemma bind_raised {S A B} (c : M S A) (k : A -> M S B) s s' e :
  c s = (s', Raised e) -> bind c k s = (s', Raised e).
Proof. intros H. unfold bind. rewrite H. reflexivity. Qed.

(** ** Sorted lists of names *)

Lemma insert_sorted_elem x y l : x ∈ insert_sorted y l <-> x = y \/ x ∈ l.
Proof.
  induction l as [| z l IH]; simpl.
  - rewrite list_elem_of_singleton. rewrite elem_of_nil. tauto.
  - destruct (String.leb y z).
    + rewrite elem_of_cons. tauto.
    + rewrite !elem_of_cons, IH. tauto.
Qed.

Lemma sorted_elem x l : x ∈ sorted l <-> x ∈ l.
Proof.
  unfold sorted. induction l as [| y l IH]; simpl.
  - tauto.
  - rewrite insert_sorted_elem, elem_of_cons, IH. tauto.
Qed.

(** ** The status and admission endpoints *)

(** C9, the counterexample -- after a failed extraction the job is known
    and not completed, and the reply to a status query has no
    ["progress"] field. *)
Lemma error_reply_lacks_progress :
  let s' := (process_video extract_exits_1 j1_path "u2net" "j1" idle).1 in
  field "status" "j1" s' = Some (VStr "error") /\
  exists body, get_status "j1" s' = JSON body /\ body !! "progress" = None.
Proof. vm_compute. split; [reflexivity |]. eexists. split; reflexivity. Qed.

(** ** The place of each registry write in a run *)

Lemma seg_after_last seg evs :
  seg_after seg evs =
    match last evs with
    | Some (EvSegment _ _) => true
    | Some _ => false
    | None => seg
    end.
Proof.
  revert seg. induction evs as [| ev rest IH]; intros seg; [reflexivity |].
  destruct ev; cbn [seg_after]; rewrite IH; destruct rest as [| ev' rest'];
    try reflexivity;
    (change (last (?x :: ev' :: rest')) with (last (ev' :: rest'));
     destruct (last (ev' :: rest')) eqn:E;
     [reflexivity | apply last_None in E; discriminate E]).
Qed.

Lemma seg_after_false evs : seg_after false evs = after_segment evs.
Proof.
  rewrite seg_after_last. unfold after_segment.
  destruct (last evs) as [[] |]; reflexivity.
Qed.

Lemma seg_after_app evs1 : forall seg evs2,
  seg_after seg (evs1 ++ evs2) = seg_after (seg_after seg evs1) evs2.
Proof.
  induction evs1 as [| ev rest IH]; intros seg evs2; [reflexivity |].
  destruct ev; cbn [app seg_after]; apply IH.
Qed.

Lemma placed_app video_id evs1 : forall seg evs2,
  placed video_id seg (evs1 ++ evs2) <->
  placed video_id seg evs1 /\ placed video_id (seg_after seg evs1) evs2.
Proof.
  induction evs1 as [| ev rest IH]; intros seg evs2.
  - simpl. tauto.
  - destruct ev; cbn [app placed seg_after]; rewrite IH; tauto.
Qed.

Section Walk.

Variable w : World.
Variables video_path method video_id : string.

Lemma walks_bind {A B} (c : M activation A) (k : A -> M activation B) seg seg1 seg2 :
  walks video_id seg c seg1 -> (forall x, walks video_id seg1 (k x) seg2) ->
  walks video_id seg (bind c k) seg2.
Proof.
  intros Hc Hk a. destruct (Hc a) as (evs1 & Hl1 & Hp1 & Hs1). unfold bind.
  destruct (c a) as [a1 [x | | e]]; cbn [fst snd] in *.
  - destruct (Hk x a1) as (evs2 & Hl2 & Hp2 & Hs2).
    exists (evs1 ++ evs2)%list. split; [rewrite Hl2, Hl1; symmetry; apply app_assoc |].
    split; [apply placed_app; rewrite Hs1; auto |].
    rewrite seg_after_app, Hs1. exact Hs2.
  - exists evs1. auto.
  - exists evs1. auto.
Qed.

Lemma walks_quiet {A} (c : M activation A) seg : quiet c -> walks video_id seg c seg.
Proof.
  intros Hq a. exists []. rewrite app_nil_r. split; [apply Hq |].
  split; [exact I |]. destruct (c a).2; reflexivity || exact I.
Qed.

(** A statement that does not complete may be followed by anything. *)
Lemma walks_stops {A} (c : M activation A) seg seg1 seg2 :
  walks video_id seg c seg1 -> (forall a x, (c a).2 <> Normal x) ->
  walks video_id seg c seg2.
Proof.
  intros Hc Hn a. destruct (Hc a) as (evs & Hl & Hp & Hs).
  exists evs. split; [exact Hl |]. split; [exact Hp |].
  specialize (Hn a). destruct (c a).2 as [x | | e]; [exfalso; apply (Hn x); reflexivity | |];
    exact I.
Qed.

Lemma quiet_ret {A} (x : A) : quiet (ret x : M activation A).
Proof. intros a. reflexivity. Qed.

Lemma quiet_raise {A} e : quiet (raise e : M activation A).
Proof. intros a. reflexivity. Qed.

Lemma quiet_of_sum {A} (r : A + exn) : quiet (of_sum r : M activation A).
Proof. destruct r; [apply quiet_ret | apply quiet_raise]. Qed.

Lemma quiet_disk f : quiet (on_state (with_disk f)).
Proof. intros a. reflexivity. Qed.

Lemma quiet_model_cuda : quiet (model_cuda w).
Proof. unfold model_cuda. destruct (w_cuda w); intros a; reflexivity. Qed.

Lemma quiet_assign p : quiet (assign_frames_dir p).
Proof. intros a. reflexivity. Qed.

Lemma quiet_makedirs : quiet (os_makedirs w video_id).
Proof. unfold os_makedirs. destruct (w_makedirs w); intros a; reflexivity. Qed.

Lemma quiet_listdir p : quiet (os_listdir video_id p).
Proof.
  intros a. unfold os_listdir. destruct (job_dir (disk (glob a)) video_id); reflexivity.
Qed.

Lemma quiet_read_frame f p : quiet (read_frame video_id f p).
Proof.
  intros a. unfold read_frame.
  destruct (job_dir (disk (glob a)) video_id ≫= _); reflexivity.
Qed.

Lemma quiet_write_frame f p data : quiet (write_frame video_id f p data).
Proof.
  intros a. unfold write_frame. destruct (job_dir (disk (glob a)) video_id); reflexivity.
Qed.

Lemma walks_raise {A} e seg seg' : walks video_id seg (raise e : M activation A) seg'.
Proof.
  apply walks_stops with seg; [apply walks_quiet, quiet_raise | discriminate].
Qed.

Lemma walks_exec argv r seg : walks video_id seg (create_subprocess_exec argv r) false.
Proof.
  intros a. exists [EvExec argv]. unfold create_subprocess_exec, bind.
  destruct r; cbn; auto.
Qed.

Lemma walks_to_thread m p r seg : walks video_id seg (to_thread m p r) true.
Proof.
  intros a. exists [EvSegment m p]. unfold to_thread, bind.
  destruct r; cbn; auto.
Qed.

Lemma walks_stage z msg :
  walks video_id false (set_status video_id (processing (VInt z) msg)) false.
Proof.
  intros a. exists [EvStatus video_id (processing (VInt z) msg)]. cbn.
  split; [reflexivity |]. split; [| reflexivity].
  split; [reflexivity |]. split; [| exact I]. right. left. exists z, msg. reflexivity.
Qed.

Lemma walks_completed path :
  walks video_id false (set_status video_id (completed path)) false.
Proof.
  intros a. exists [EvStatus video_id (completed path)]. cbn.
  split; [reflexivity |]. split; [| reflexivity].
  split; [reflexivity |]. split; [| exact I]. right. right. exists path. reflexivity.
Qed.

Lemma walks_frame k n :
  walks video_id true (set_status video_id (processing_frame (VRatio k n))) false.
Proof.
  intros a. exists [EvStatus video_id (processing_frame (VRatio k n))]. cbn.
  split; [reflexivity |]. split; [| reflexivity].
  split; [reflexivity |]. split; [| exact I]. right. exists k, n. reflexivity.
Qed.

Lemma walks_error msg seg :
  walks video_id seg (set_status video_id (error msg)) false.
Proof.
  intros a. exists [EvStatus video_id (error msg)]. cbn.
  split; [reflexivity |]. split; [| reflexivity].
  split; [reflexivity |]. split; [| exact I]. left. exists msg. reflexivity.
Qed.

(** Recording an error and returning. *)
Lemma walks_give_up {A} msg seg seg' :
  walks video_id seg
    (bind (set_status video_id (error msg)) (fun _ => return_ : M activation A)) seg'.
Proof.
  apply walks_stops with false.
  - eapply walks_bind; [apply walks_error |]. intros _. apply walks_quiet. intros a. reflexivity.
  - intros a x. discriminate.
Qed.

Lemma walks_fail_if failed stderr msg seg :
  walks video_id seg (fail_if failed stderr video_id msg) seg.
Proof.
  unfold fail_if. destruct failed; [| apply walks_quiet, quiet_ret].
  eapply walks_bind; [apply walks_quiet, quiet_of_sum |].
  intros _. apply walks_give_up.
Qed.

Lemma walks_process_frame f p seg :
  walks video_id seg (process_frame w video_id f p method) true.
Proof.
  unfold process_frame.
  eapply walks_bind; [apply walks_quiet, quiet_read_frame |]. intros bytes.
  eapply walks_bind; [apply walks_quiet, quiet_of_sum |]. intros img.
  destruct (String.eqb method "bria"); [apply walks_to_thread |].
  destruct (String.eqb method "inspyrenet"); [apply walks_to_thread |].
  destruct (in_list method rembg_models); [apply walks_to_thread | apply walks_raise].
Qed.

Lemma walks_frame_loop frames_dir total files : forall i,
  walks video_id false (frame_loop w video_id method frames_dir total i files) false.
Proof.
  induction files as [| f rest IH]; intros i; cbn [frame_loop].
  - apply walks_quiet, quiet_ret.
  - eapply walks_bind; [apply walks_process_frame |]. intros out.
    eapply walks_bind; [apply walks_quiet, quiet_of_sum |]. intros png.
    eapply walks_bind; [apply walks_quiet, quiet_write_frame |]. intros _.
    eapply walks_bind; [apply walks_frame |]. intros _. apply IH.
Qed.

Lemma walks_body :
  walks video_id false (process_video_body w video_path method video_id) false.
Proof.
  unfold process_video_body.
  eapply walks_bind.
  { apply walks_quiet. destruct (String.eqb method "inspyrenet");
      [apply quiet_model_cuda | apply quiet_ret]. }
  intros _. eapply walks_bind; [apply walks_stage |].
  intros _. eapply walks_bind; [apply walks_exec |].
  intros [[rc out] err].
  eapply walks_bind; [apply walks_fail_if |].
  intros _. eapply walks_bind; [apply walks_quiet, quiet_of_sum |].
  intros text. eapply walks_bind; [apply walks_quiet, quiet_of_sum |].
  intros n. eapply walks_bind.
  { destruct (n >? 250); [apply walks_give_up | apply walks_quiet, quiet_ret]. }
  intros _. eapply walks_bind; [apply walks_quiet, quiet_assign |].
  intros _. eapply walks_bind; [apply walks_quiet, quiet_makedirs |].
  intros _. eapply walks_bind; [apply walks_stage |].
  intros _. eapply walks_bind; [apply walks_exec |].
  intros [[rc' out'] err'].
  eapply walks_bind; [apply walks_quiet, quiet_disk |].
  intros _. eapply walks_bind; [apply walks_fail_if |].
  intros _. eapply walks_bind; [apply walks_stage |].
  intros _. eapply walks_bind; [apply walks_quiet, quiet_listdir |].
  intros names. eapply walks_bind.
  { destruct (_ =? 0)%nat; [apply walks_give_up | apply walks_quiet, quiet_ret]. }
  intros _. eapply walks_bind; [apply walks_frame_loop |].
  intros _. eapply walks_bind; [apply walks_stage |].
  intros _. eapply walks_bind; [apply walks_exec |].
  intros [[rc2 out2] err2].
  eapply walks_bind; [apply walks_quiet, quiet_disk |].
  intros _. eapply walks_bind; [apply walks_fail_if |].
  intros _. apply walks_completed.
Qed.

(** The [except] block adds the record of the failure, wherever the
    [try] block stopped. *)
Lemma walks_except e seg :
  walks video_id seg (process_video_except method video_id e) false.
Proof.
  unfold process_video_except.
  eapply walks_bind; [apply walks_error |]. intros _.
  apply walks_quiet. unfold model_cpu.
  destruct (String.eqb method "inspyrenet"); intros a; reflexivity.
Qed.

(** Every registry write of a run is in its place. *)
Lemma run_placed s :
  exists evs,
    log (process_video w video_path method video_id s).1 = (log s ++ evs)%list /\
    placed video_id false evs.
Proof.
  unfold process_video, try_except_finally.
  set (a0 := {| glob := s; frames_dir_var := None |}).
  destruct (walks_body a0) as (evs1 & Hl1 & Hp1 & _).
  destruct (process_video_body w video_path method video_id a0) as [a1 o1].
  cbn [fst snd] in Hl1.
  assert (Hmid : exists a2 o2 evs,
    (match o1 with
     | Raised e => process_video_except method video_id e a1
     | _ => (a1, o1)
     end) = (a2, o2) /\
    log (glob a2) = (log s ++ evs)%list /\ placed video_id false evs).
  { destruct o1 as [x | | e].
    - exists a1, (Normal x), evs1. auto.
    - exists a1, Returned, evs1. auto.
    - destruct (walks_except e (seg_after false evs1) a1) as (evs2 & Hl2 & Hp2 & _).
      destruct (process_video_except method video_id e a1) as [a2 o2].
      cbn [fst] in Hl2. exists a2, o2, (evs1 ++ evs2)%list.
      split; [reflexivity |]. split; [rewrite Hl2, Hl1; symmetry; apply app_assoc |].
      apply placed_app. auto. }
  destruct Hmid as (a2 & o2 & evs & -> & Hl & Hp).
  destruct (finally_spec method video_id a2) as ([_ _ _ L] & _).
  destruct (process_video_finally method video_id a2) as [a3 o3]. cbn [fst] in L.
  exists evs. split; [| exact Hp].
  destruct o3; cbn [fst glob]; rewrite L; exact Hl.
Qed.

End Walk.

(** The answer to a status query on a stored record of each kind. *)
Lemma get_status_not_completed video_id s r :
  processing_status s !! video_id = Some r ->
  is_Some (r !! "status") ->
  r !! "status" <> Some (VStr "completed") ->
  get_status video_id s = JSON r.
Proof.
  intros Hr [st Hst] Hnc. unfold get_status. rewrite Hr, Hst.
  rewrite decide_False by congruence. reflexivity.
Qed.

(** C9, as amended -- a status query on a job whose stored record [r]
    was written by [process_video] and is not a completed record is
    answered with [r] itself as the JSON object.  It always has
    [status], one of [processing], [error] and [completed].  Which other
    fields it has depends on the statement that wrote it.  A record in
    the error state has [message] and no [progress].  A [processing]
    record written right after a model has run on a frame, that is by
    the frame loop, has [progress], the computed percentage, and no
    [message].  A [processing] record written anywhere else, that is at
    the start of a stage, has both [progress], an integer, and
    [message]. *)
Theorem status_reply_fields w video_path method video_id s0 before r later s :
  log (process_video w video_path method video_id s0).1
    = (log s0 ++ before ++ EvStatus video_id r :: later)%list ->
  processing_status s !! video_id = Some r ->
  (exists st, r !! "status" = Some (VStr st) /\
     (st = "processing" \/ st = "error" \/ st = "completed")) /\
  (r !! "status" <> Some (VStr "completed") -> get_status video_id s = JSON r) /\
  (r !! "status" = Some (VStr "error") ->
     r !! "progress" = None /\ exists msg, r !! "message" = Some (VStr msg)) /\
  (r !! "status" = Some (VStr "processing") -> after_segment before = true ->
     (exists k n, r !! "progress" = Some (VRatio k n)) /\ r !! "message" = None) /\
  (r !! "status" = Some (VStr "processing") -> after_segment before = false ->
     (exists z, r !! "progress" = Some (VInt z)) /\
     exists msg, r !! "message" = Some (VStr msg)).
Proof.
  intros Hlog Hr.
  destruct (run_placed w video_path method video_id s0) as (evs & Hl & Hp).
  rewrite Hlog in Hl. apply app_inv_head in Hl. subst evs.
  apply placed_app in Hp as [_ Hp]. rewrite seg_after_false in Hp.
  cbn [placed] in Hp. destruct Hp as (_ & Hkind & _).
  assert (Hst : exists st, r !! "status" = Some (VStr st) /\
                  (st = "processing" \/ st = "error" \/ st = "completed")).
  { destruct Hkind as [(msg & ->) | Hkind]; [exists "error"; auto |].
    destruct (after_segment before).
    - destruct Hkind as (k & n & ->). exists "processing". auto.
    - destruct Hkind as [(z & msg & ->) | (path & ->)];
        [exists "processing" | exists "completed"]; auto. }
  split; [exact Hst |].
  split.
  { intros Hnc. apply get_status_not_completed; [exact Hr | | exact Hnc].
    destruct Hst as (st & -> & _). eauto. }
  split.
  { intros He. destruct Hkind as [(msg & ->) | Hkind]; [split; [reflexivity | eauto] |].
    exfalso. destruct (after_segment before).
    - destruct Hkind as (k & n & ->). discriminate He.
    - destruct Hkind as [(z & msg & ->) | (path & ->)]; discriminate He. }
  split.
  { intros Hproc Hseg. rewrite Hseg in Hkind.
    destruct Hkind as [(msg & ->) | (k & n & ->)]; [discriminate Hproc |].
    split; [eauto | reflexivity]. }
  intros Hproc Hseg. rewrite Hseg in Hkind.
  destruct Hkind as [(msg & ->) | [(z & msg & ->) | (path & ->)]];
    [discriminate Hproc | | discriminate Hproc].
  split; eauto.
Qed.

Lemma status_reply_fields_witness :
  let run := log (process_video two_frames j1_path "u2net" "j1" idle).1 in
  let r := processing_frame (VRatio 1 2) in
  let s := with_status <["j1" := r]> idle in
  run !! 5%nat = Some (EvSegment "u2net" "temp_videos/frames/j1/frame_00001.png") /\
  run !! 6%nat = Some (EvStatus "j1" r) /\
  get_status "j1" s = JSON r /\
  r !! "progress" = Some (VRatio 1 2) /\ r !! "message" = None.
Proof.
  cbv zeta.
  split; [vm_compute; reflexivity |]. split; [vm_compute; reflexivity |].
  assert (Hlog : log (process_video two_frames j1_path "u2net" "j1" idle).1
                 = (log idle
                    ++ take 6 (log (process_video two_frames j1_path "u2net" "j1" idle).1)
                    ++ EvStatus "j1" (processing_frame (VRatio 1 2))
                       :: drop 7 (log (process_video two_frames j1_path "u2net" "j1" idle).1))%list).
  { vm_compute. reflexivity. }
  assert (Hr : processing_status (with_status <["j1" := processing_frame (VRatio 1 2)]> idle)
                 !! "j1" = Some (processing_frame (VRatio 1 2))).
  { apply lookup_insert_eq. }
  destruct (status_reply_fields two_frames j1_path "u2net" "j1" idle _ _ _ _ Hlog Hr)
    as (_ & Hreply & _ & Hframe & _).
  split; [apply Hreply; discriminate |].
  split; [reflexivity |].
  apply Hframe; vm_compute; reflexivity.
Defined.

Lemma exists_after_set_video name data fs :
  os_path_exists (set_video name data fs) (os_path_join TEMP_VIDEOS_DIR name) = true.
Proof.
  unfold os_path_exists. apply orb_true_intro. left.
  apply existsb_exists. exists name. split; [| apply String.eqb_refl].
  apply list_elem_of_In. apply list_elem_of_fmap. exists (name, data). split; [reflexivity |].
  apply elem_of_map_to_list. simpl. apply lookup_insert_eq.
Qed.

(** C10, the counterexample -- the response to the upload of job [j1]
    has no key ["job_id"]; the identifier is under ["video_id"]. *)
Lemma upload_response_key :
  let '(_, resp, _) := remove_background_video upload_j1 "u2net" fresh_server in
  exists body, resp = JSON body /\
    body !! "job_id" = None /\ body !! "video_id" = Some (VStr "j1").
Proof. vm_compute. eexists. repeat split. Qed.

(** C10, as amended -- when the upload can be stored, the response body
    is the JSON object with the single key ["video_id"] mapping to the
    job's string identifier; it is produced with [process_video] only
    scheduled, not run: the registry and the log of external actions are
    as before the request. *)
Theorem admission_response u method s content :
  u_open u = None ->
  u_read u = inl content ->
  let '(s', resp, tasks) := remove_background_video u method s in
  resp = JSON {[ "video_id" := VStr (u_uuid4 u) ]} /\
  tasks = [{| t_video_path := os_path_join TEMP_VIDEOS_DIR (input_name (u_uuid4 u));
              t_method := method; t_video_id := u_uuid4 u |}] /\
  fs_videos (disk s') !! input_name (u_uuid4 u) = Some content /\
  processing_status s' = processing_status s /\
  log s' = log s.
Proof.
  intros Hopen Hread.
  unfold remove_background_video, remove_background_video_body.
  cbv [bind modify gets of_sum ret raise]. rewrite Hopen, Hread. simpl.
  rewrite exists_after_set_video. simpl.
  repeat split. apply lookup_insert_eq.
Qed.

Lemma admission_response_witness :
  u_open upload_j1 = None /\ u_read upload_j1 = inl "mp4" /\
  (remove_background_video upload_j1 "u2net" fresh_server).1.2
    = JSON {[ "video_id" := VStr "j1" ]}.
Proof.
  split; [reflexivity |]. split; [reflexivity |].
  pose proof (admission_response upload_j1 "u2net" fresh_server "mp4" eq_refl eq_refl) as H.
  destruct (remove_background_video upload_j1 "u2net" fresh_server) as [[s' resp] tasks].
  destruct H as [H _]. exact H.
Defined.

(** ** The retention loop *)

Lemma sweep_item_present k item fs :
  present fs item ->
  exists fs', sweep_item k item fs = (fs', Normal tt) /\
    forall other, other <> item -> present fs other -> present fs' other.
Proof.
  intros Hp. unfold sweep_item, bind, os_path_getmtime, gets.
  assert (Hex : (isfile_top fs item || isdir_top fs item)%bool = true).
  { destruct Hp as [-> | ->]; [reflexivity | apply orb_true_r]. }
  rewrite Hex.
  destruct (k_now k - k_mtime k item >? ten_minutes).
  2: { exists fs. split; [reflexivity | auto]. }
  destruct (isfile_top fs item) eqn:Hf.
  - unfold os_remove_top. rewrite Hf. eexists. split; [reflexivity |].
    intros other Hne. unfold present, isdir_top, isfile_top. simpl.
    rewrite lookup_delete_ne by congruence. auto.
  - simpl in Hex. rewrite Hex. unfold shutil_rmtree. rewrite Hex.
    eexists. split; [reflexivity |].
    intros other Hne [Ho | Ho]; [left; exact Ho |].
    exfalso. unfold isdir_top in Hex, Ho.
    apply andb_true_iff in Hex as [Hex _], Ho as [Ho _].
    apply andb_true_iff in Hex as [Hex _], Ho as [Ho _].
    apply String.eqb_eq in Hex, Ho. congruence.
Qed.

Lemma listdir_top_NoDup fs : NoDup (listdir_top fs).
Proof.
  unfold listdir_top. apply NoDup_app. split; [apply NoDup_fst_map_to_list |].
  split.
  - intros x Hx. case_bool_decide as Hd; [| apply not_elem_of_nil].
    intros Hin. apply list_elem_of_singleton in Hin as ->.
    apply list_elem_of_fmap in Hx as [[n v] [E Hnv]]. simpl in E. subst n.
    apply elem_of_map_to_list in Hnv. destruct Hd as [_ Hd]. congruence.
  - case_bool_decide; [apply NoDup_singleton | apply NoDup_nil_2].
Qed.

Lemma listdir_top_present fs item : item ∈ listdir_top fs -> present fs item.
Proof.
  unfold listdir_top. intros Hin. apply elem_of_app in Hin as [Hin | Hin].
  - left. apply list_elem_of_fmap in Hin as [[n v] [E Hnv]]. simpl in E. subst n.
    apply elem_of_map_to_list in Hnv. unfold isfile_top.
    apply bool_decide_eq_true. eauto.
  - case_bool_decide as Hd; [| apply not_elem_of_nil in Hin; contradiction].
    apply list_elem_of_singleton in Hin as ->. right. destruct Hd as [Hfr Hnf].
    unfold isdir_top, isfile_top. rewrite Hnf.
    rewrite (bool_decide_eq_true_2 _ Hfr). reflexivity.
Qed.

(** ** The single-image endpoint *)

(** X1 -- a method outside the supported set never gets the status 400
    that the code raises for it: the [HTTPException] is caught by the
    handler's own [except Exception] and sent as status 500, with the
    text of the caught exception as detail; nothing in the process-wide
    state changes. *)
Theorem image_invalid_method_is_500 w u method s bytes image :
  supported method = false ->
  i_read u = inl bytes ->
  w_image_open w bytes = inl image ->
  remove_background w u method s
    = (s, ImageHTTPException 500 (i_http_str u 400 "Invalid method")).
Proof.
  intros Hu Hread Hopen. unfold supported in Hu.
  apply orb_false_iff in Hu as [Hu H3]. apply orb_false_iff in Hu as [H1 H2].
  unfold remove_background, remove_background_body.
  rewrite Hread, H1, H2, H3. cbv [bind of_sum ret raise]. rewrite Hopen. reflexivity.
Qed.

Lemma image_invalid_method_is_500_witness :
  supported "foo" = false /\
  (remove_background two_frames image_upload "foo" idle).2
    = ImageHTTPException 500 "400: Invalid method".
Proof.
  split; [reflexivity |].
  rewrite (image_invalid_method_is_500 two_frames image_upload "foo" idle "jpeg" "rgb:jpeg"
             eq_refl eq_refl eq_refl).
  reflexivity.
Defined.

(** X2 -- with method [inspyrenet], when the model fails on the image
    the request is answered with status 500 and the model is left on
    the GPU: the call that moves it back is skipped by the exception and
    the handler has no [finally]. *)
Theorem image_failure_keeps_model_on_gpu w u s bytes image e :
  i_read u = inl bytes ->
  w_image_open w bytes = inl image ->
  w_cuda w = None ->
  w_inspyrenet w image = inr e ->
  remove_background w u "inspyrenet" s
    = (with_gpu true s, ImageHTTPException 500 (str_exn e)).
Proof.
  intros Hread Hopen Hcuda Hfail.
  unfold remove_background, remove_background_body.
  rewrite Hread, Hcuda. cbv [bind of_sum ret raise modify]. rewrite Hopen. simpl.
  rewrite Hfail. reflexivity.
Qed.

Lemma image_failure_keeps_model_on_gpu_witness :
  inspyrenet_on_gpu idle = false /\
  inspyrenet_on_gpu (remove_background inspyrenet_fails image_upload "inspyrenet" idle).1
    = true.
Proof.
  split; [reflexivity |].
  rewrite (image_failure_keeps_model_on_gpu inspyrenet_fails image_upload idle
             "jpeg" "rgb:jpeg" (Exn "RuntimeError" "CUDA out of memory")
             eq_refl eq_refl eq_refl eq_refl).
  reflexivity.
Defined.

Lemma rembg_model_names method :
  in_list method rembg_models = true ->
  String.eqb method "bria" = false /\ String.eqb method "inspyrenet" = false.
Proof.
  unfold in_list, rembg_models. cbn [existsb]. intros H.
  repeat (apply orb_true_iff in H as [H | H]);
    try discriminate H; apply String.eqb_eq in H; subst method; split; reflexivity.
Qed.

(** X3 -- when the upload can be read and opened, the model selected by
    the method answers [out] for the opened image, and the PNG encoder
    turns [out] into [png], the reply is exactly [png] with media type
    [image/png]: the bytes sent are the encoding of that model's output
    for the uploaded image.  The registry, the disk and the log are
    untouched, and the inspyrenet model is on the CPU afterwards if the
    method was [inspyrenet] and where it was otherwise. *)
Theorem image_success w u method s bytes image out png :
  i_read u = inl bytes ->
  w_image_open w bytes = inl image ->
  segmented_by w method image out ->
  w_image_save w out = inl png ->
  remove_background w u method s
    = (release method s, ImageResponse png "image/png").
Proof.
  intros Hread Hopen Hseg Hsave.
  unfold remove_background, remove_background_body, release.
  rewrite Hread. cbv [bind of_sum ret raise modify]. rewrite Hopen.
  destruct Hseg as [-> Hout | -> Hcuda Hout | Hin Hout].
  - cbn. rewrite Hout, Hsave. reflexivity.
  - cbn. rewrite Hcuda, Hout, Hsave. reflexivity.
  - destruct (rembg_model_names method Hin) as [-> ->]. rewrite Hin, Hout, Hsave.
    reflexivity.
Qed.

Lemma image_success_witness :
  segmented_by two_frames "u2net" "rgb:jpeg" "u2net:rgb:jpeg" /\
  remove_background two_frames image_upload "u2net" idle
    = (idle, ImageResponse "png:u2net:rgb:jpeg" "image/png").
Proof.
  assert (H : segmented_by two_frames "u2net" "rgb:jpeg" "u2net:rgb:jpeg").
  { apply by_rembg; reflexivity. }
  split; [exact H |].
  exact (image_success two_frames image_upload "u2net" idle "jpeg" "rgb:jpeg"
           "u2net:rgb:jpeg" "png:u2net:rgb:jpeg" eq_refl eq_refl H eq_refl).
Defined.

(** ** Admission failures *)

(** X4 -- when the upload cannot be stored, because the file cannot be
    opened or the body cannot be read, the request is answered with
    status 500 and the text of the failure, no task is scheduled and the
    registry and the log are untouched; if it was the read that failed,
    the input file that [open] had already created stays on disk,
    empty. *)
Theorem admission_failure u method s e :
  upload_fails u e ->
  let '(s', resp, tasks) := remove_background_video u method s in
  resp = HTTPException 500 ("Error in video processing: " ++ str_exn e) /\
  tasks = [] /\
  processing_status s' = processing_status s /\
  log s' = log s /\
  (u_open u = None ->
   fs_videos (disk s') = <[input_name (u_uuid4 u) := ""]> (fs_videos (disk s))).
Proof.
  intros [e' Hopen | e' Hopen Hread];
    unfold remove_background_video, remove_background_video_body;
    cbv [bind modify gets of_sum ret raise]; rewrite Hopen; simpl.
  - repeat split. intros H. discriminate H.
  - rewrite Hread. simpl. repeat split.
Qed.

Lemma admission_failure_witness :
  upload_fails broken_upload (Exn "ClientDisconnect" "client went away") /\
  (remove_background_video broken_upload "u2net" fresh_server).1.2
    = HTTPException 500 "Error in video processing: client went away" /\
  (remove_background_video broken_upload "u2net" fresh_server).2 = [].
Proof.
  assert (H : upload_fails broken_upload (Exn "ClientDisconnect" "client went away")).
  { apply read_fails; reflexivity. }
  split; [exact H |].
  pose proof (admission_failure broken_upload "u2net" fresh_server _ H) as Hf.
  destruct (remove_background_video broken_upload "u2net" fresh_server) as [[s' resp] tasks].
  destruct Hf as (Hr & Ht & _). split; [exact Hr | exact Ht].
Defined.

(** ** What a sweep removes *)

Lemma sweep_item_effect k item fs :
  present fs item ->
  (sweep_item k item fs).2 = Normal tt /\
  (sweep_item k item fs).1 =
    (if expired k item then
       if isfile_top fs item
       then {| fs_videos := delete item (fs_videos fs); fs_frames := fs_frames fs |}
       else {| fs_videos := fs_videos fs; fs_frames := None |}
     else fs).
Proof.
  intros Hp. unfold sweep_item, bind, os_path_getmtime, gets, expired.
  assert (Hex : (isfile_top fs item || isdir_top fs item)%bool = true).
  { destruct Hp as [-> | ->]; [reflexivity | apply orb_true_r]. }
  rewrite Hex.
  destruct (k_now k - k_mtime k item >? ten_minutes); [| split; reflexivity].
  destruct (isfile_top fs item) eqn:Hf.
  - unfold os_remove_top. rewrite Hf. split; reflexivity.
  - simpl in Hex. rewrite Hex. unfold shutil_rmtree. rewrite Hex. split; reflexivity.
Qed.

(** The effect of the loop body over a list of distinct entries that
    are all there. *)
Lemma sweep_items_effect k items : forall fs,
  NoDup items -> (forall item, item ∈ items -> present fs item) ->
  let fs' := (sweep_items k items fs).1 in
  (forall name, fs_videos fs' !! name =
     if bool_decide (name ∈ items) && expired k name then None
     else fs_videos fs !! name) /\
  fs_frames fs' =
    (if bool_decide ("frames" ∈ items) && expired k "frames"
        && negb (isfile_top fs "frames")
     then None else fs_frames fs).
Proof.
  induction items as [| item rest IH]; intros fs Hnd Hall.
  - simpl. split; [intros name; reflexivity | reflexivity].
  - inversion Hnd as [| ? ? Hnotin Hnd']; subst.
    assert (Hp : present fs item) by (apply Hall; left).
    destruct (sweep_item_effect k item fs Hp) as [Ho Hfs].
    destruct (sweep_item_present k item fs Hp) as (fs1 & Hrun & Hkeep).
    rewrite Hrun in Ho, Hfs. simpl in Hfs.
    cbn [sweep_items]. unfold bind. rewrite Hrun.
    destruct (IH fs1 Hnd') as [Hv Hf].
    { intros other Ho'. apply Hkeep; [intros ->; contradiction | apply Hall; right; exact Ho']. }
    cbv zeta in Hv, Hf. cbv zeta. split.
    + intros name. rewrite Hv.
      destruct (decide (name = item)) as [-> | Hne].
      * rewrite (bool_decide_eq_false_2 _ Hnotin).
        rewrite (bool_decide_eq_true_2 (item ∈ item :: rest)) by left. simpl.
        rewrite Hfs. destruct (expired k item); [| reflexivity].
        destruct (isfile_top fs item) eqn:Hf'; simpl.
        -- apply lookup_delete_eq.
        -- unfold isfile_top in Hf'. apply bool_decide_eq_false in Hf'.
           destruct (fs_videos fs !! item); [exfalso; apply Hf'; eauto | reflexivity].
      * assert (Hsame : fs_videos fs1 !! name = fs_videos fs !! name).
        { rewrite Hfs. destruct (expired k item); [| reflexivity].
          destruct (isfile_top fs item); simpl; [apply lookup_delete_ne; congruence | reflexivity]. }
        rewrite Hsame.
        destruct (bool_decide (name ∈ rest)) eqn:Hin.
        -- rewrite (bool_decide_eq_true_2 (name ∈ item :: rest))
             by (right; apply bool_decide_eq_true in Hin; exact Hin).
           reflexivity.
        -- rewrite (bool_decide_eq_false_2 (name ∈ item :: rest)); [reflexivity |].
           apply bool_decide_eq_false in Hin. intros Hc.
           apply elem_of_cons in Hc as [Hc | Hc]; contradiction.
    + rewrite Hf.
      destruct (decide ("frames" = item)) as [<- | Hne].
      * rewrite (bool_decide_eq_false_2 _ Hnotin).
        rewrite (bool_decide_eq_true_2 ("frames" ∈ "frames" :: rest)) by left. simpl.
        rewrite Hfs. destruct (expired k "frames"); [| reflexivity].
        destruct (isfile_top fs "frames"); reflexivity.
      * assert (Hfile : isfile_top fs1 "frames" = isfile_top fs "frames").
        { rewrite Hfs. destruct (expired k item); [| reflexivity].
          destruct (isfile_top fs item); [| reflexivity].
          unfold isfile_top. simpl. rewrite lookup_delete_ne by congruence. reflexivity. }
        assert (Hfr : fs_frames fs1 = fs_frames fs).
        { rewrite Hfs. destruct (expired k item); [| reflexivity].
          destruct (isfile_top fs item) eqn:Hif; [reflexivity |].
          exfalso. destruct Hp as [Hp | Hp]; [congruence |].
          unfold isdir_top in Hp. apply andb_true_iff in Hp as [Hp _].
          apply andb_true_iff in Hp as [Hp _]. apply String.eqb_eq in Hp. congruence. }
        rewrite Hfile, Hfr.
        destruct (bool_decide ("frames" ∈ rest)) eqn:Hin.
        -- rewrite (bool_decide_eq_true_2 ("frames" ∈ item :: rest))
             by (right; apply bool_decide_eq_true in Hin; exact Hin).
           reflexivity.
        -- rewrite (bool_decide_eq_false_2 ("frames" ∈ item :: rest)); [reflexivity |].
           apply bool_decide_eq_false in Hin. intros Hc.
           apply elem_of_cons in Hc as [Hc | Hc]; [congruence | contradiction].
Qed.

Lemma elem_of_listdir_top fs name :
  name ∈ listdir_top fs <->
  is_Some (fs_videos fs !! name) \/
  (name = "frames" /\ is_Some (fs_frames fs) /\ fs_videos fs !! "frames" = None).
Proof.
  unfold listdir_top. rewrite elem_of_app. split.
  - intros [Hin | Hin].
    + left. apply list_elem_of_fmap in Hin as [[n v] [E Hnv]]. simpl in E. subst n.
      apply elem_of_map_to_list in Hnv. eauto.
    + case_bool_decide as Hd; [| apply elem_of_nil in Hin; contradiction].
      apply list_elem_of_singleton in Hin. right. tauto.
  - intros [[v Hv] | (-> & Hfr & Hnf)].
    + left. apply list_elem_of_fmap. exists (name, v). split; [reflexivity |].
      apply elem_of_map_to_list. exact Hv.
    + right. rewrite bool_decide_eq_true_2 by tauto. left.
Qed.

(** What a sweep during which nothing disappears leaves on disk. *)
Lemma sweep_effect k fs :
  k_vanished k = [] ->
  let fs' := (sweep k fs).1 in
  (forall name, fs_videos fs' !! name =
     if expired k name then None else fs_videos fs !! name) /\
  fs_frames fs' =
    (if expired k "frames" && bool_decide (fs_videos fs !! "frames" = None)
     then None else fs_frames fs).
Proof.
  intros Hq. unfold sweep, bind, gets, modify. rewrite Hq. simpl.
  destruct (sweep_items_effect k (listdir_top fs) fs (listdir_top_NoDup fs)
              (listdir_top_present fs)) as [Hv Hf].
  cbv zeta in Hv, Hf. split.
  - intros name. rewrite Hv.
    destruct (expired k name); [| rewrite andb_false_r; reflexivity].
    rewrite andb_true_r.
    destruct (bool_decide (name ∈ listdir_top fs)) eqn:Hin; [reflexivity |].
    apply bool_decide_eq_false in Hin.
    destruct (fs_videos fs !! name) eqn:E; [| reflexivity].
    exfalso. apply Hin, elem_of_listdir_top. left. eauto.
  - rewrite Hf. unfold isfile_top.
    destruct (expired k "frames"); [| rewrite andb_false_r; reflexivity].
    rewrite andb_true_r. cbn [andb].
    destruct (fs_videos fs !! "frames") as [v |] eqn:E.
    + rewrite (bool_decide_eq_true_2 (is_Some (Some v))) by eauto.
      rewrite andb_false_r. rewrite bool_decide_eq_false_2 by discriminate. reflexivity.
    + rewrite (bool_decide_eq_false_2 (is_Some None)) by (intros [? ?]; discriminate).
      rewrite andb_true_r. rewrite (bool_decide_eq_true_2 (None = None)) by reflexivity.
      destruct (bool_decide ("frames" ∈ listdir_top fs)) eqn:Hin; [reflexivity |].
      apply bool_decide_eq_false in Hin.
      destruct (fs_frames fs) eqn:Efr; [| reflexivity].
      exfalso. apply Hin, elem_of_listdir_top. right. rewrite Efr. eauto.
Qed.

(** X5 -- a sweep during which nothing disappears removes exactly the
    entries whose age is strictly more than ten minutes: afterwards a
    video file is absent if it was older than that and otherwise is as
    it was, contents included; the directory [frames] is removed as a
    whole, with the frames of every job in it, if it was older than that,
    and otherwise kept. *)
Theorem sweep_removes_expired k fs :
  k_vanished k = [] ->
  let fs' := (sweep k fs).1 in
  (forall name, fs_videos fs' !! name =
     if expired k name then None else fs_videos fs !! name) /\
  fs_frames fs' =
    (if expired k "frames" && bool_decide (fs_videos fs !! "frames" = None)
     then None else fs_frames fs).
Proof. intros Hq. apply sweep_effect. exact Hq. Qed.

Lemma sweep_removes_expired_witness :
  k_vanished second_wake = [] /\
  fs_videos (sweep second_wake janitor_disk).1 !! "output_old.webm" = None.
Proof.
  split; [reflexivity |].
  rewrite (proj1 (sweep_removes_expired second_wake janitor_disk eq_refl)).
  reflexivity.
Defined.

(** X6 -- an entry that is exactly ten minutes old is kept: the test is
    strict. *)
Theorem sweep_keeps_ten_minutes_old k fs name :
  k_vanished k = [] ->
  k_now k - k_mtime k name = ten_minutes ->
  fs_videos (sweep k fs).1 !! name = fs_videos fs !! name.
Proof.
  intros Hq Hage. rewrite (proj1 (sweep_effect k fs Hq)).
  unfold expired. rewrite Hage. rewrite Z.gtb_ltb, Z.ltb_irrefl. reflexivity.
Qed.

Lemma sweep_keeps_ten_minutes_old_witness :
  k_vanished boundary_wake = [] /\
  k_now boundary_wake - k_mtime boundary_wake "input_a.mp4" = ten_minutes /\
  fs_videos (sweep boundary_wake janitor_disk).1 !! "input_a.mp4" = Some "a".
Proof.
  split; [reflexivity |]. split; [reflexivity |].
  rewrite (sweep_keeps_ten_minutes_old boundary_wake janitor_disk "input_a.mp4"
             eq_refl eq_refl).
  reflexivity.
Defined.

(** X7 -- in a working directory where no regular file is named
    [frames], sweeping twice on the same clock and modification times
    leaves what sweeping once leaves. *)
Theorem sweep_idempotent k fs :
  k_vanished k = [] ->
  fs_videos fs !! "frames" = None ->
  (sweep k (sweep k fs).1).1 = (sweep k fs).1.
Proof.
  intros Hq Hnf.
  destruct (sweep_effect k fs Hq) as [Hv Hf].
  destruct (sweep_effect k (sweep k fs).1 Hq) as [Hv2 Hf2].
  cbv zeta in *.
  destruct (sweep k (sweep k fs).1).1 as [v2 f2] eqn:E2.
  destruct (sweep k fs).1 as [v1 f1] eqn:E1. simpl in *.
  f_equal.
  - apply map_eq. intros name. rewrite Hv2.
    destruct (expired k name) eqn:Ex; [| reflexivity].
    rewrite Hv, Ex. reflexivity.
  - rewrite Hf2, Hf. destruct (expired k "frames") eqn:Ex; [| reflexivity].
    rewrite Hv, Ex, Hnf. reflexivity.
Qed.

Lemma sweep_idempotent_witness :
  k_vanished second_wake = [] /\
  fs_videos janitor_disk !! "frames" = None /\
  (sweep second_wake (sweep second_wake janitor_disk).1).1 = (sweep second_wake janitor_disk).1.
Proof.
  split; [reflexivity |]. split; [reflexivity |].
  apply sweep_idempotent; reflexivity.
Defined.

(** ** An entry that disappears during a sweep *)








(** ** What a job leaves alone *)

Section Apart.

Variable w : World.
Variables video_path method video_id : string.

Lemma apart_refl a : apart video_id method a a.
Proof. split; [| split]; auto. Qed.

Lemma apart_trans a b c :
  apart video_id method a b -> apart video_id method b c -> apart video_id method a c.
Proof.
  intros (R1 & G1 & V1) (R2 & G2 & V2). split; [| split].
  - intros o Ho. rewrite R2, R1; auto.
  - intros Hm. rewrite G2, G1; auto.
  - destruct V2 as [V2 | V2]; [rewrite V2; exact V1 | right; exact V2].
Qed.

Lemma keeps_bind {A B} (c : M activation A) (k : A -> M activation B) :
  keeps (apart video_id method) c -> (forall x, keeps (apart video_id method) (k x)) ->
  keeps (apart video_id method) (bind c k).
Proof.
  intros Hc Hk a. specialize (Hc a). unfold bind.
  destruct (c a) as [a1 [x | | e]]; simpl in *; auto.
  eapply apart_trans; [exact Hc | apply Hk].
Qed.

Lemma silent_keeps {A} (c : M activation A) : silent c -> keeps (apart video_id method) c.
Proof.
  intros Hc a. destruct (Hc a) as (R & G & V). split; [| split].
  - intros. rewrite R. reflexivity.
  - intros. exact G.
  - left. exact V.
Qed.

Lemma silent_bind {A B} (c : M activation A) (k : A -> M activation B) :
  silent c -> (forall x, silent (k x)) -> silent (bind c k).
Proof.
  intros Hc Hk a. destruct (Hc a) as (R & G & V). unfold bind.
  destruct (c a) as [a1 [x | | e]]; simpl in *; auto.
  destruct (Hk x a1) as (R2 & G2 & V2). repeat split; congruence.
Qed.

Lemma silent_ret {A} (x : A) : silent (ret x : M activation A).
Proof. intros a. repeat split. Qed.

Lemma silent_raise {A} e : silent (raise e : M activation A).
Proof. intros a. repeat split. Qed.

Lemma silent_of_sum {A} (r : A + exn) : silent (of_sum r : M activation A).
Proof. destruct r; [apply silent_ret | apply silent_raise]. Qed.

Lemma silent_event ev : silent (on_state (with_event ev)).
Proof. intros a. repeat split. Qed.

Lemma silent_disk f : silent (on_state (with_disk f)).
Proof. intros a. repeat split. Qed.

Lemma silent_exec argv r : silent (create_subprocess_exec argv r).
Proof.
  unfold create_subprocess_exec. apply silent_bind; [apply silent_event |].
  intros _. destruct r; [apply silent_raise | apply silent_ret].
Qed.

Lemma silent_makedirs : silent (os_makedirs w video_id).
Proof. unfold os_makedirs. destruct (w_makedirs w); [apply silent_raise | apply silent_disk]. Qed.

Lemma silent_listdir p : silent (os_listdir video_id p).
Proof.
  intros a. unfold os_listdir.
  destruct (job_dir (disk (glob a)) video_id); repeat split.
Qed.

Lemma silent_read_frame f p : silent (read_frame video_id f p).
Proof.
  intros a. unfold read_frame.
  destruct (job_dir (disk (glob a)) video_id ≫= _); repeat split.
Qed.

Lemma silent_write_frame f p data : silent (write_frame video_id f p data).
Proof.
  intros a. unfold write_frame.
  destruct (job_dir (disk (glob a)) video_id); repeat split.
Qed.

Lemma silent_remove f p : silent (os_remove video_id f p).
Proof.
  intros a. unfold os_remove.
  destruct (job_dir (disk (glob a)) video_id) as [d |]; [| repeat split].
  destruct (d !! f); repeat split.
Qed.

Lemma silent_rmdir p : silent (os_rmdir video_id p).
Proof.
  intros a. unfold os_rmdir.
  destruct (job_dir (disk (glob a)) video_id) as [d |]; [| repeat split].
  destruct (decide (d = ∅)); repeat split.
Qed.

Lemma silent_remove_all p files : silent (remove_all video_id p files).
Proof.
  induction files as [| f rest IH]; simpl; [apply silent_ret |].
  apply silent_bind; [apply silent_remove | intros _; exact IH].
Qed.

Lemma silent_process_frame f p : silent (process_frame w video_id f p method).
Proof.
  unfold process_frame.
  apply silent_bind; [apply silent_read_frame | intros bytes].
  apply silent_bind; [apply silent_of_sum | intros img].
  unfold to_thread.
  destruct (String.eqb method "bria");
    [apply silent_bind; [apply silent_event | intros _; apply silent_of_sum] |].
  destruct (String.eqb method "inspyrenet");
    [apply silent_bind; [apply silent_event | intros _; apply silent_of_sum] |].
  destruct (in_list method rembg_models);
    [apply silent_bind; [apply silent_event | intros _; apply silent_of_sum] |
     apply silent_raise].
Qed.

Lemma keeps_set_status r : keeps (apart video_id method) (set_status video_id r).
Proof.
  intros a. split; [| split]; simpl; auto.
  intros o Ho. apply lookup_insert_ne. congruence.
Qed.

Lemma keeps_gpu b :
  String.eqb method "inspyrenet" = true ->
  keeps (apart video_id method) (on_state (with_gpu b)).
Proof. intros Hm a. split; [| split]; simpl; auto. congruence. Qed.

Lemma keeps_acquire :
  keeps (apart video_id method)
    (if String.eqb method "inspyrenet" then model_cuda w else ret tt).
Proof.
  destruct (String.eqb method "inspyrenet") eqn:E; [| apply silent_keeps, silent_ret].
  unfold model_cuda. destruct (w_cuda w); [apply silent_keeps, silent_raise |].
  apply keeps_gpu, E.
Qed.

Lemma keeps_release :
  keeps (apart video_id method)
    (if String.eqb method "inspyrenet" then model_cpu else ret tt).
Proof.
  destruct (String.eqb method "inspyrenet") eqn:E; [| apply silent_keeps, silent_ret].
  apply keeps_gpu, E.
Qed.

Lemma keeps_assign :
  keeps (apart video_id method) (assign_frames_dir (os_path_join FRAMES_DIR video_id)).
Proof. intros a. split; [| split]; simpl; auto. Qed.

Lemma keeps_give_up {A} msg :
  keeps (apart video_id method)
    (bind (set_status video_id (error msg)) (fun _ => return_ : M activation A)).
Proof.
  apply keeps_bind; [apply keeps_set_status |].
  intros _ a. apply apart_refl.
Qed.

Lemma keeps_fail_if failed stderr msg :
  keeps (apart video_id method) (fail_if failed stderr video_id msg).
Proof.
  unfold fail_if. destruct failed; [| apply silent_keeps, silent_ret].
  apply keeps_bind; [apply silent_keeps, silent_of_sum |].
  intros _. apply keeps_give_up.
Qed.

Lemma keeps_frame_loop frames_dir total files :
  forall i, keeps (apart video_id method)
              (frame_loop w video_id method frames_dir total i files).
Proof.
  induction files as [| f rest IH]; intros i; simpl; [apply silent_keeps, silent_ret |].
  apply keeps_bind; [apply silent_keeps, silent_process_frame | intros img].
  apply keeps_bind; [apply silent_keeps, silent_of_sum | intros png].
  apply keeps_bind; [apply silent_keeps, silent_write_frame | intros _].
  apply keeps_bind; [apply keeps_set_status | intros _]. apply IH.
Qed.

Lemma keeps_body :
  keeps (apart video_id method) (process_video_body w video_path method video_id).
Proof.
  unfold process_video_body.
  apply keeps_bind; [apply keeps_acquire | intros _].
  apply keeps_bind; [apply keeps_set_status | intros _].
  apply keeps_bind; [apply silent_keeps, silent_exec | intros [[rc out] err]].
  apply keeps_bind; [apply keeps_fail_if | intros _].
  apply keeps_bind; [apply silent_keeps, silent_of_sum | intros text].
  apply keeps_bind; [apply silent_keeps, silent_of_sum | intros n].
  apply keeps_bind.
  { destruct (n >? 250); [apply keeps_give_up | apply silent_keeps, silent_ret]. }
  intros _. apply keeps_bind; [apply keeps_assign | intros _].
  apply keeps_bind; [apply silent_keeps, silent_makedirs | intros _].
  apply keeps_bind; [apply keeps_set_status | intros _].
  apply keeps_bind; [apply silent_keeps, silent_exec | intros [[rc' out'] err']].
  apply keeps_bind; [apply silent_keeps, silent_disk | intros _].
  apply keeps_bind; [apply keeps_fail_if | intros _].
  apply keeps_bind; [apply keeps_set_status | intros _].
  apply keeps_bind; [apply silent_keeps, silent_listdir | intros names].
  apply keeps_bind.
  { destruct (_ =? 0)%nat; [apply keeps_give_up | apply silent_keeps, silent_ret]. }
  intros _. apply keeps_bind; [apply keeps_frame_loop | intros _].
  apply keeps_bind; [apply keeps_set_status | intros _].
  apply keeps_bind; [apply silent_keeps, silent_exec | intros [[rc2 out2] err2]].
  apply keeps_bind; [apply silent_keeps, silent_disk | intros _].
  apply keeps_bind; [apply keeps_fail_if | intros _].
  apply keeps_set_status.
Qed.

Lemma keeps_except e :
  keeps (apart video_id method) (process_video_except method video_id e).
Proof.
  unfold process_video_except.
  apply keeps_bind; [apply keeps_set_status | intros _]. apply keeps_release.
Qed.

Lemma keeps_finally :
  keeps (apart video_id method) (process_video_finally method video_id).
Proof.
  unfold process_video_finally.
  apply keeps_bind.
  { apply silent_keeps. intros a. unfold read_frames_dir.
    destruct (frames_dir_var a) eqn:E; simpl; repeat split; exact E. }
  intros p. apply keeps_bind; [apply silent_keeps, silent_listdir | intros files].
  apply keeps_bind; [apply silent_keeps, silent_remove_all | intros _].
  apply keeps_bind; [apply silent_keeps, silent_rmdir | intros _].
  apply keeps_release.
Qed.

(** The [except] block always completes. *)
Lemma except_completes e a : (process_video_except method video_id e a).2 = Normal tt.
Proof.
  unfold process_video_except, bind. simpl.
  destruct (String.eqb method "inspyrenet"); reflexivity.
Qed.

(** How the [finally] block can end. *)
Lemma finally_outcome a :
  let r := process_video_finally method video_id a in
  (r.2 = Normal tt /\
   (String.eqb method "inspyrenet" = true -> inspyrenet_on_gpu (glob r.1) = false)) \/
  (frames_dir_var a = None /\ r.2 = Raised unbound_frames_dir) \/
  (exists p, frames_dir_var a = Some p /\ r.2 = Raised (no_such_file p)).
Proof.
  unfold process_video_finally, bind, read_frames_dir.
  destruct (frames_dir_var a) as [p |] eqn:Hvar; simpl; [| right; left; auto].
  unfold os_listdir.
  destruct (job_dir (disk (glob a)) video_id) as [d |] eqn:Hd; simpl.
  2: { right. right. exists p. auto. }
  left.
  destruct (remove_all_spec video_id p (map fst (map_to_list d)) d a Hd) as
    (a' & Hrun & Hdir & _).
  { apply NoDup_fst_map_to_list. }
  { intros f Hf. apply list_elem_of_fmap in Hf as [[k v] [-> Hkv]].
    apply elem_of_map_to_list in Hkv. simpl. eauto. }
  rewrite Hrun. unfold os_rmdir. rewrite Hdir.
  assert (Hempty : foldl (fun d f => delete f d) d (map fst (map_to_list d)) = ∅).
  { apply map_eq. intros x. rewrite lookup_foldl_delete, lookup_empty.
    destruct (decide (x ∈ map fst (map_to_list d))) as [Hin | Hout]; [reflexivity |].
    destruct (d !! x) as [v |] eqn:Hx; [| reflexivity].
    exfalso. apply Hout. apply list_elem_of_fmap. exists (x, v). split; [reflexivity |].
    apply elem_of_map_to_list. exact Hx. }
  rewrite Hempty. rewrite decide_True by reflexivity. simpl.
  destruct (String.eqb method "inspyrenet"); simpl; split; auto; discriminate.
Qed.

(** The run up to the [finally] block: no exception is pending there. *)
Lemma before_finally s a1 o1 :
  process_video_body w video_path method video_id {| glob := s; frames_dir_var := None |}
    = (a1, o1) ->
  exists a2 o2,
    match o1 with
    | Raised e => process_video_except method video_id e a1
    | _ => (a1, o1)
    end = (a2, o2) /\
    apart video_id method {| glob := s; frames_dir_var := None |} a2 /\
    (forall e, o2 <> Raised e).
Proof.
  intros Hrun.
  pose proof (keeps_body {| glob := s; frames_dir_var := None |}) as Hb.
  rewrite Hrun in Hb. simpl in Hb. destruct o1 as [x | | e].
  - exists a1, (Normal x). split; [reflexivity |]. split; [exact Hb | discriminate].
  - exists a1, Returned. split; [reflexivity |]. split; [exact Hb | discriminate].
  - pose proof (keeps_except e a1) as He. pose proof (except_completes e a1) as Hc.
    destruct (process_video_except method video_id e a1) as [a2 o2]. simpl in *.
    exists a2, o2. split; [reflexivity |]. split; [eapply apart_trans; eauto |].
    subst o2. discriminate.
Qed.

Lemma run_apart s :
  let r := process_video w video_path method video_id s in
  (forall other, other <> video_id ->
     processing_status r.1 !! other = processing_status s !! other) /\
  (String.eqb method "inspyrenet" = false ->
     inspyrenet_on_gpu r.1 = inspyrenet_on_gpu s) /\
  (r.2 = Normal tt \/ r.2 = Returned \/ r.2 = Raised unbound_frames_dir \/
   r.2 = Raised (no_such_file (os_path_join FRAMES_DIR video_id))) /\
  (String.eqb method "inspyrenet" = true -> (forall e, r.2 <> Raised e) ->
     inspyrenet_on_gpu r.1 = false).
Proof.
  unfold process_video, try_except_finally.
  destruct (process_video_body w video_path method video_id _) as [a1 o1] eqn:Hbody.
  destruct (before_finally s a1 o1 Hbody) as (a2 & o2 & -> & Hap & Ho2).
  pose proof (keeps_finally a2) as Hf. pose proof (finally_outcome a2) as Hout.
  destruct (process_video_finally method video_id a2) as [a3 o3]. simpl in Hf, Hout.
  pose proof (apart_trans _ _ _ Hap Hf) as (R & G & _).
  destruct Hap as (_ & _ & V2). simpl in R, G, V2.
  destruct Hout as [[-> Hgpu] | [[Hv ->] | (p & Hv & ->)]]; simpl.
  - split; [exact R |]. split; [exact G |]. split; [| intros Hm _; auto].
    destruct o2 as [[] | | e]; [auto | auto | exfalso; apply (Ho2 e); reflexivity].
  - split; [exact R |]. split; [exact G |]. split; [auto |].
    intros _ H. exfalso. apply (H unbound_frames_dir). reflexivity.
  - split; [exact R |]. split; [exact G |]. split.
    + destruct V2 as [V2 | V2]; rewrite V2 in Hv; [discriminate |].
      inversion Hv; subst. auto.
    + intros _ H. exfalso. apply (H (no_such_file p)). reflexivity.
Qed.

End Apart.

(** ** A run in which every stage succeeds *)

Lemma acquire_ok w method s v :
  (method = "inspyrenet" -> w_cuda w = None) ->
  (if String.eqb method "inspyrenet" then model_cuda w else ret tt)
    {| glob := s; frames_dir_var := v |}
  = ({| glob := acquire method s; frames_dir_var := v |}, Normal tt).
Proof.
  intros Hcuda. unfold acquire, model_cuda.
  destruct (String.eqb method "inspyrenet") eqn:E; [| reflexivity].
  apply String.eqb_eq in E. rewrite (Hcuda E). reflexivity.
Qed.



Lemma job_dir_extracted w video_id fs :
  exists d, job_dir (extracted_disk w video_id fs) video_id = Some d.
Proof.
  unfold extracted_disk, write_frames.
  destruct (job_dir fs video_id) as [d0 |] eqn:E.
  - rewrite E. eexists. apply job_dir_set_same.
  - rewrite job_dir_set_same. eexists. apply job_dir_set_same.
Qed.

Lemma fs_videos_extracted w video_id fs :
  fs_videos (extracted_disk w video_id fs) = fs_videos fs.
Proof.
  unfold extracted_disk. rewrite write_frames_videos.
  destruct (job_dir fs video_id); reflexivity.
Qed.

Lemma disk_acquire method s : disk (acquire method s) = disk s.
Proof. unfold acquire. destruct (String.eqb method "inspyrenet"); reflexivity. Qed.

Lemma log_acquire method s : log (acquire method s) = log s.
Proof. unfold acquire. destruct (String.eqb method "inspyrenet"); reflexivity. Qed.

Lemma frame_names_in_dir w video_id fs d f :
  job_dir (extracted_disk w video_id fs) video_id = Some d ->
  f ∈ frame_names w video_id fs -> is_Some (d !! f).
Proof.
  intros Hd Hf. unfold frame_names in Hf. rewrite Hd in Hf.
  apply sorted_elem, list_elem_of_filter in Hf as [_ Hf].
  apply list_elem_of_fmap in Hf as [[g v] [E Hg]]. simpl in E. subst g.
  apply elem_of_map_to_list in Hg. eauto.
Qed.

Section Success.

Variable w : World.
Variables video_path method video_id : string.





(** From the end of the [try] block to the end of [process_video], when
    [frames_dir] is bound and the job's directory exists. *)
Lemma finish_cleanly s a1 o1 :
  process_video_body w video_path method video_id {| glob := s; frames_dir_var := None |}
    = (a1, o1) ->
  (forall e, o1 <> Raised e) ->
  bound a1 -> is_Some (job_dir (disk (glob a1)) video_id) ->
  let r := process_video w video_path method video_id s in
  r.2 = o1 /\
  processing_status r.1 = processing_status (glob a1) /\
  fs_videos (disk r.1) = fs_videos (disk (glob a1)) /\
  log r.1 = log (glob a1) /\
  job_dir (disk r.1) video_id = None.
Proof.
  intros Hbody Hok Hb Hj. unfold process_video, try_except_finally. rewrite Hbody.
  destruct (finally_spec method video_id a1) as ([R V _ L] & Hgone & Hnormal).
  specialize (Hnormal Hb Hj).
  assert (Hg : job_dir (disk (glob (process_video_finally method video_id a1).1)) video_id
               = None).
  { apply Hgone. intros Hv. destruct Hb as [p Hp]. congruence. }
  destruct o1 as [[] | | e]; [| | exfalso; apply (Hok e); reflexivity];
    destruct (process_video_finally method video_id a1) as [a3 o3];
    simpl in *; subst o3; auto.
Qed.

End Success.

(** ** Order of the frames *)












(** ** The run as a whole *)











(** ** File names *)

Lemma string_length_app (a b : string) :
  String.length (a ++ b) = (String.length a + String.length b)%nat.
Proof. induction a as [| c a IH]; simpl; [reflexivity | rewrite IH; reflexivity]. Qed.

Lemma string_app_inv_tail (a b s : string) : a ++ s = b ++ s -> a = b.
Proof.
  revert b. induction a as [| c a IH]; intros [| c' b] H.
  - reflexivity.
  - apply (f_equal String.length) in H. rewrite !string_length_app in H. simpl in H. lia.
  - apply (f_equal String.length) in H. rewrite !string_length_app in H. simpl in H. lia.
  - simpl in H. injection H as -> H. f_equal. apply IH, H.
Qed.

Lemma output_name_inj a b : output_name a = output_name b -> a = b.
Proof.
  unfold output_name. intros H. apply (inj (String.app "output_")) in H.
  apply string_app_inv_tail in H. exact H.
Qed.

Lemma input_name_inj a b : input_name a = input_name b -> a = b.
Proof.
  unfold input_name. intros H. apply (inj (String.app "input_")) in H.
  apply string_app_inv_tail in H. exact H.
Qed.

Lemma join_temp name :
  os_path_join TEMP_VIDEOS_DIR name
  = if String.prefix "/" name then name else "temp_videos/" ++ name.
Proof. unfold os_path_join. destruct (String.prefix "/" name); reflexivity. Qed.

Lemma join_temp_output_inj name video_id :
  os_path_join TEMP_VIDEOS_DIR name = os_path_join TEMP_VIDEOS_DIR (output_name video_id) ->
  name = output_name video_id.
Proof.
  rewrite !join_temp. change (String.prefix "/" (output_name video_id)) with false.
  destruct (String.prefix "/" name) eqn:E.
  - intros H. subst name. discriminate E.
  - intros H. apply (inj (String.app "temp_videos/")) in H. exact H.
Qed.

(** [os.path.exists] of a job's output path looks up the file of that
    name. *)
Lemma os_path_exists_output fs video_id :
  os_path_exists fs (os_path_join TEMP_VIDEOS_DIR (output_name video_id))
  = bool_decide (is_Some (fs_videos fs !! output_name video_id)).
Proof.
  unfold os_path_exists.
  assert (Hfr : String.eqb FRAMES_DIR (os_path_join TEMP_VIDEOS_DIR (output_name video_id))
                = false) by reflexivity.
  rewrite Hfr. rewrite andb_false_l, orb_false_r.
  destruct (fs_videos fs !! output_name video_id) as [data |] eqn:E.
  - rewrite (bool_decide_eq_true_2 (is_Some (Some data))) by eauto.
    apply existsb_exists. exists (output_name video_id). split; [| apply String.eqb_refl].
    apply list_elem_of_In, list_elem_of_fmap. exists (output_name video_id, data).
    split; [reflexivity | apply elem_of_map_to_list; exact E].
  - rewrite (bool_decide_eq_false_2 (is_Some None)) by (intros [? ?]; discriminate).
    apply not_true_is_false. intros H. apply existsb_exists in H as (name & Hin & Heq).
    apply String.eqb_eq, join_temp_output_inj in Heq. subst name.
    apply list_elem_of_In, list_elem_of_fmap in Hin as [[k v] [Ek Hkv]].
    simpl in Ek. subst k. apply elem_of_map_to_list in Hkv. congruence.
Qed.

(** ** Jobs and requests side by side *)

(** X12 -- a run of one job leaves every other job alone: the registry
    entry, the input file, the output file and the frame directory of
    any other identifier are after the run what they were before it,
    however the run ends. *)
Theorem other_jobs_untouched w video_path method video_id s other :
  other <> video_id ->
  let s' := (process_video w video_path method video_id s).1 in
  processing_status s' !! other = processing_status s !! other /\
  fs_videos (disk s') !! input_name other = fs_videos (disk s) !! input_name other /\
  fs_videos (disk s') !! output_name other = fs_videos (disk s) !! output_name other /\
  job_dir (disk s') other = job_dir (disk s) other.
Proof.
  intros Hne.
  destruct (run_apart w video_path method video_id s) as (Hreg & _).
  destruct (process_video_summary w video_path method video_id s)
    as (_ & Hvid & Hoth & _).
  cbv zeta in *. split; [apply Hreg, Hne |].
  split; [apply Hvid; discriminate |].
  split; [apply Hvid; intros H; apply output_name_inj in H; contradiction |].
  apply Hoth, Hne.
Qed.

Lemma other_jobs_untouched_witness :
  "j0" <> "j1" /\
  fs_videos (disk (process_video two_frames j1_path "u2net" "j1" idle).1) !! output_name "j0"
    = None.
Proof.
  assert (H : "j0" <> "j1") by discriminate.
  split; [exact H |].
  destruct (other_jobs_untouched two_frames j1_path "u2net" "j1" idle "j0" H)
    as (_ & _ & Ho & _).
  rewrite Ho. reflexivity.
Defined.

(** X13 -- a job whose method is not [inspyrenet] never moves the
    inspyrenet model: it is on the same device after the run as before,
    however the run ends. *)
Theorem model_untouched_by_other_methods w video_path method video_id s :
  method <> "inspyrenet" ->
  inspyrenet_on_gpu (process_video w video_path method video_id s).1 = inspyrenet_on_gpu s.
Proof.
  intros Hm.
  destruct (run_apart w video_path method video_id s) as (_ & Hgpu & _).
  apply Hgpu. apply String.eqb_neq, Hm.
Qed.

Lemma model_untouched_by_other_methods_witness :
  "bria" <> "inspyrenet" /\
  inspyrenet_on_gpu (process_video probe_exits_1 j1_path "bria" "j1" idle).1 = false.
Proof.
  assert (H : "bria" <> "inspyrenet") by discriminate.
  split; [exact H |].
  rewrite (model_untouched_by_other_methods probe_exits_1 j1_path "bria" "j1" idle H).
  reflexivity.
Defined.



(** X15 -- whenever no exception leaves [process_video], the inspyrenet
    model is on the CPU afterwards if the method was [inspyrenet], and
    where it was otherwise. *)
Theorem accelerator_released_on_return w video_path method video_id s :
  (forall e, (process_video w video_path method video_id s).2 <> Raised e) ->
  inspyrenet_on_gpu (process_video w video_path method video_id s).1
    = inspyrenet_on_gpu (release method s).
Proof.
  intros Hok.
  destruct (run_apart w video_path method video_id s) as (_ & Hother & _ & Hinsp).
  unfold release. destruct (String.eqb method "inspyrenet") eqn:E.
  - simpl. apply Hinsp; [reflexivity | exact Hok].
  - apply Hother. reflexivity.
Qed.

Lemma accelerator_released_on_return_witness :
  (forall e, (process_video two_frames j1_path "inspyrenet" "j1" idle).2 <> Raised e) /\
  inspyrenet_on_gpu (process_video two_frames j1_path "inspyrenet" "j1" idle).1 = false.
Proof.
  assert (H : forall e, (process_video two_frames j1_path "inspyrenet" "j1" idle).2
                        <> Raised e).
  { intros e He. vm_compute in He. discriminate He. }
  split; [exact H |].
  rewrite (accelerator_released_on_return two_frames j1_path "inspyrenet" "j1" idle H).
  reflexivity.
Defined.

(** ** Stage failures after the gate *)

Lemma bind_returned {S A B} (c : M S A) (k : A -> M S B) s s' :
  c s = (s', Returned) -> bind c k s = (s', Returned).
Proof. intros H. unfold bind. rewrite H. reflexivity. Qed.

Lemma log_record_status video_id r s :
  log (record_status video_id r s) = (log s ++ [EvStatus video_id r])%list.
Proof. reflexivity. Qed.

Section Stages.

Variable w : World.
Variables video_path method video_id : string.
Hypothesis Hgate : passes_gate w method.

(** The [try] block up to the assignment of [frames_dir]. *)
Ltac to_makedirs :=
  let Hcuda := fresh "Hcuda" in
  let out := fresh "out" in let err := fresh "err" in let n := fresh "n" in
  let Hprobe := fresh "Hprobe" in let Hint := fresh "Hint" in let Hn := fresh "Hn" in
  let Hgt := fresh "Hgt" in
  destruct Hgate as [Hcuda (out & err & n & Hprobe & Hint & Hn)];
  assert (Hgt : (n >? 250) = false) by (rewrite Z.gtb_ltb; apply Z.ltb_ge; lia);
  unfold process_video_body; rewrite Hprobe;
  erewrite bind_normal by (apply acquire_ok; exact Hcuda);
  do 2 (erewrite bind_normal by reflexivity); cbv iota beta;
  do 2 (erewrite bind_normal by reflexivity);
  rewrite Hint; erewrite bind_normal by reflexivity;
  rewrite Hgt; do 2 (erewrite bind_normal by reflexivity).

Lemma body_makedirs_fails s e :
  w_makedirs w = Some e ->
  process_video_body w video_path method video_id {| glob := s; frames_dir_var := None |}
  = ({| glob := probed video_path method video_id s;
        frames_dir_var := Some (os_path_join FRAMES_DIR video_id) |}, Raised e).
Proof.
  intros Hmk. to_makedirs.
  apply bind_raised. unfold os_makedirs. rewrite Hmk. reflexivity.
Qed.

Lemma body_extract_fails s rc out' msg :
  w_makedirs w = None ->
  w_extract w = Exited rc out' (Text msg) -> rc <> 0 ->
  process_video_body w video_path method video_id {| glob := s; frames_dir_var := None |}
  = ({| glob := record_status video_id (error "Error extracting frames")
                  (after_extraction w video_path method video_id s);
        frames_dir_var := Some (os_path_join FRAMES_DIR video_id) |}, Returned).
Proof.
  intros Hmk Hex Hrc.
  assert (Hne : negb (rc =? 0) = true) by (apply negb_true_iff, Z.eqb_neq; exact Hrc).
  to_makedirs. rewrite Hex.
  erewrite bind_normal by (unfold os_makedirs; rewrite Hmk; reflexivity).
  do 2 (erewrite bind_normal by reflexivity). cbv iota beta.
  erewrite bind_normal by reflexivity.
  apply bind_returned. rewrite Hne. reflexivity.
Qed.

Lemma body_no_frames s out' err' :
  w_makedirs w = None ->
  w_extract w = Exited 0 out' err' ->
  frame_names w video_id (disk s) = [] ->
  process_video_body w video_path method video_id {| glob := s; frames_dir_var := None |}
  = ({| glob := record_status video_id (error "No frames were extracted from the video")
                  (record_status video_id (processing (VInt 0) "Removing background")
                     (after_extraction w video_path method video_id s));
        frames_dir_var := Some (os_path_join FRAMES_DIR video_id) |}, Returned).
Proof.
  intros Hmk Hex Hnone.
  destruct (job_dir_extracted w video_id (disk s)) as [d Hd].
  to_makedirs. rewrite Hex.
  erewrite bind_normal by (unfold os_makedirs; rewrite Hmk; reflexivity).
  do 2 (erewrite bind_normal by reflexivity). cbv iota beta.
  do 3 (erewrite bind_normal by reflexivity).
  match goal with
  | |- context [bind (os_listdir _ _) _ ?a] =>
      change a with (Activation
                       (record_status video_id (processing (VInt 0) "Removing background")
                          (after_extraction w video_path method video_id s))
                       (Some (os_path_join FRAMES_DIR video_id)))
  end.
  assert (Hdisk : disk (after_extraction w video_path method video_id s)
                  = extracted_disk w video_id (disk s)).
  { unfold after_extraction, extracted_disk, probed. simpl. rewrite disk_acquire. reflexivity. }
  erewrite bind_normal
    by (unfold os_listdir; cbn [glob record_status with_event with_status disk];
        rewrite Hdisk, Hd; reflexivity).
  assert (Hnames : sorted (filter (fun f => Py.endswith f ".png" = true)
                             (map fst (map_to_list d))) = []).
  { unfold frame_names in Hnone. rewrite Hd in Hnone. exact Hnone. }
  rewrite Hnames. apply bind_returned. reflexivity.
Qed.

Lemma after_extraction_facts s :
  is_Some (job_dir (disk (after_extraction w video_path method video_id s)) video_id) /\
  fs_videos (disk (after_extraction w video_path method video_id s)) = fs_videos (disk s) /\
  log (after_extraction w video_path method video_id s) =
    (log s ++ [EvStatus video_id (processing (VInt 0) "Initializing");
               EvExec (frame_count_command video_path);
               EvStatus video_id (processing (VInt 0) "Extracting frames");
               EvExec (extract_command video_path (os_path_join FRAMES_DIR video_id))])%list.
Proof.
  assert (Hdisk : disk (after_extraction w video_path method video_id s)
                  = extracted_disk w video_id (disk s)).
  { unfold after_extraction, extracted_disk, probed. simpl. rewrite disk_acquire. reflexivity. }
  rewrite Hdisk. split; [destruct (job_dir_extracted w video_id (disk s)); eauto |].
  split; [apply fs_videos_extracted |].
  unfold after_extraction, probed. simpl. rewrite log_acquire. rewrite <- !app_assoc. reflexivity.
Qed.

End Stages.

(** X16 -- when the probe has passed and the extraction exits with a
    non-zero code, the job's record becomes exactly [status = error],
    message ["Error extracting frames"]; [process_video] returns without
    an exception, the frame directory is removed together with whatever
    frames the extraction had written, the video files are untouched,
    and neither a model nor the encoder is started. *)
Theorem extraction_failure w video_path method video_id s rc out msg :
  passes_gate w method ->
  w_makedirs w = None ->
  w_extract w = Exited rc out (Text msg) ->
  rc <> 0 ->
  let r := process_video w video_path method video_id s in
  r.2 = Returned /\
  processing_status r.1 !! video_id = Some (error "Error extracting frames") /\
  job_dir (disk r.1) video_id = None /\
  fs_videos (disk r.1) = fs_videos (disk s) /\
  log r.1 =
    (log s ++ [EvStatus video_id (processing (VInt 0) "Initializing");
               EvExec (frame_count_command video_path);
               EvStatus video_id (processing (VInt 0) "Extracting frames");
               EvExec (extract_command video_path (os_path_join FRAMES_DIR video_id));
               EvStatus video_id (error "Error extracting frames")])%list.
Proof.
  intros Hgate Hmk Hex Hrc.
  pose proof (body_extract_fails w video_path method video_id Hgate s rc out msg Hmk Hex Hrc)
    as Hbody.
  destruct (after_extraction_facts w video_path method video_id s) as (Hj & Hvid & Hlog).
  match type of Hbody with _ = (?a1, _) =>
    destruct (finish_cleanly w video_path method video_id s a1 Returned Hbody)
      as (Ho & Hr & Hvs & Hl & Hgone)
  end.
  { discriminate. }
  { eexists. reflexivity. }
  { exact Hj. }
  cbv zeta. split; [exact Ho |]. split; [rewrite Hr; simpl; apply lookup_insert_eq |].
  split; [exact Hgone |]. split; [rewrite Hvs; exact Hvid |].
  rewrite Hl. cbn [glob]. rewrite log_record_status, Hlog.
  rewrite <- !app_assoc. reflexivity.
Qed.

Lemma extraction_failure_witness :
  passes_gate extract_exits_1 "u2net" /\
  processing_status (process_video extract_exits_1 j1_path "u2net" "j1" idle).1 !! "j1"
    = Some (error "Error extracting frames") /\
  job_dir (disk (process_video extract_exits_1 j1_path "u2net" "j1" idle).1) "j1" = None.
Proof.
  assert (H : passes_gate extract_exits_1 "u2net").
  { split; [intros; reflexivity |]. exists ("2" ++ newline), (Text ""), 2.
    split; [reflexivity |]. split; [reflexivity | lia]. }
  split; [exact H |].
  assert (Hrc : 1 <> 0) by lia.
  destruct (extraction_failure extract_exits_1 j1_path "u2net" "j1" idle 1 (Text "")
              "Invalid data found" H eq_refl eq_refl Hrc) as (_ & Hr & Hg & _).
  split; [exact Hr | exact Hg].
Defined.

(** X17 -- when the probe has passed and the extraction exits with code
    0 but the job's directory then holds no [.png] file, the job's
    record becomes exactly [status = error], message
    ["No frames were extracted from the video"]; [process_video]
    returns without an exception and the frame directory is removed. *)
Theorem no_frames_extracted w video_path method video_id s out err :
  passes_gate w method ->
  w_makedirs w = None ->
  w_extract w = Exited 0 out err ->
  frame_names w video_id (disk s) = [] ->
  let r := process_video w video_path method video_id s in
  r.2 = Returned /\
  processing_status r.1 !! video_id
    = Some (error "No frames were extracted from the video") /\
  job_dir (disk r.1) video_id = None /\
  fs_videos (disk r.1) = fs_videos (disk s).
Proof.
  intros Hgate Hmk Hex Hnone.
  pose proof (body_no_frames w video_path method video_id Hgate s out err Hmk Hex Hnone)
    as Hbody.
  destruct (after_extraction_facts w video_path method video_id s) as (Hj & Hvid & _).
  match type of Hbody with _ = (?a1, _) =>
    destruct (finish_cleanly w video_path method video_id s a1 Returned Hbody)
      as (Ho & Hr & Hvs & _ & Hgone)
  end.
  { discriminate. }
  { eexists. reflexivity. }
  { exact Hj. }
  cbv zeta. split; [exact Ho |]. split; [rewrite Hr; simpl; apply lookup_insert_eq |].
  split; [exact Hgone |]. rewrite Hvs. exact Hvid.
Qed.

Lemma no_frames_extracted_witness :
  passes_gate extract_leaves_nothing "u2net" /\
  frame_names extract_leaves_nothing "j1" (disk idle) = [] /\
  processing_status (process_video extract_leaves_nothing j1_path "u2net" "j1" idle).1 !! "j1"
    = Some (error "No frames were extracted from the video").
Proof.
  assert (H : passes_gate extract_leaves_nothing "u2net").
  { split; [intros; reflexivity |]. exists ("2" ++ newline), (Text ""), 2.
    split; [reflexivity |]. split; [reflexivity | lia]. }
  split; [exact H |]. split; [reflexivity |].
  destruct (no_frames_extracted extract_leaves_nothing j1_path "u2net" "j1" idle (Text "")
              (Text "") H eq_refl eq_refl eq_refl) as (_ & Hr & _).
  exact Hr.
Defined.

(** X18 -- when the probe has passed and [os.makedirs] raises, for a job
    whose frame directory does not exist, the [except] block records
    the failure's text and releases the model, and then the [finally]
    block fails in its turn: [os.listdir] raises [FileNotFoundError]
    for the directory that was never created, and that exception leaves
    [process_video]. *)
Theorem makedirs_failure w video_path method video_id s e :
  passes_gate w method ->
  w_makedirs w = Some e ->
  job_dir (disk s) video_id = None ->
  process_video w video_path method video_id s
  = (release method
       (record_status video_id (error (str_exn e)) (probed video_path method video_id s)),
     Raised (no_such_file (os_path_join FRAMES_DIR video_id))).
Proof.
  intros Hgate Hmk Hfresh.
  unfold process_video, try_except_finally.
  rewrite (body_makedirs_fails w video_path method video_id Hgate s e Hmk).
  assert (Hj : forall b,
    job_dir (disk (release method (with_gpu b
      (record_status video_id (error (str_exn e)) (probed video_path method video_id s)))))
      video_id = None).
  { intros b. unfold release, probed.
    destruct (String.eqb method "inspyrenet"); simpl; rewrite disk_acquire; exact Hfresh. }
  unfold process_video_except, process_video_finally, release, model_cpu in *.
  cbv [bind set_status on_state modify read_frames_dir ret glob frames_dir_var].
  destruct (String.eqb method "inspyrenet").
  - unfold os_listdir. cbn [glob]. specialize (Hj false). simpl in Hj. simpl.
    rewrite disk_acquire, Hfresh. reflexivity.
  - unfold os_listdir. cbn [glob]. simpl. rewrite disk_acquire, Hfresh. reflexivity.
Qed.

Lemma makedirs_failure_witness :
  passes_gate makedirs_fails "u2net" /\
  (process_video makedirs_fails j1_path "u2net" "j1" idle).2
    = Raised (no_such_file "temp_videos/frames/j1").
Proof.
  assert (H : passes_gate makedirs_fails "u2net").
  { split; [intros; reflexivity |]. exists ("2" ++ newline), (Text ""), 2.
    split; [reflexivity |]. split; [reflexivity | lia]. }
  split; [exact H |].
  rewrite (makedirs_failure makedirs_fails j1_path "u2net" "j1" idle _ H eq_refl eq_refl).
  reflexivity.
Defined.

(** X19 -- with method [inspyrenet], when moving the model to the GPU
    raises, the job's record becomes [status = error] with the text of
    that failure; no subprocess is started; the [except] block moves
    the model to the CPU; and [UnboundLocalError] from the [finally]
    block leaves [process_video]. *)
Theorem cuda_failure w video_path video_id s e :
  w_cuda w = Some e ->
  process_video w video_path "inspyrenet" video_id s
  = (with_gpu false (record_status video_id (error (str_exn e)) s),
     Raised unbound_frames_dir).
Proof.
  intros Hcuda. unfold process_video, try_except_finally, process_video_body.
  cbv [bind ret raise model_cuda process_video_except process_video_finally set_status
       on_state modify model_cpu read_frames_dir glob frames_dir_var record_status].
  simpl. rewrite Hcuda. reflexivity.
Qed.

Lemma cuda_failure_witness :
  w_cuda cuda_fails = Some (Exn "RuntimeError" "No CUDA GPUs are available") /\
  processing_status (process_video cuda_fails j1_path "inspyrenet" "j1" idle).1 !! "j1"
    = Some (error "No CUDA GPUs are available").
Proof.
  split; [reflexivity |].
  rewrite (cuda_failure cuda_fails j1_path "j1" idle _ eq_refl). reflexivity.
Defined.

(** ** A method that [process_frame] does not know *)

(** None of the three tests of [process_frame] succeeds. *)
Lemma unsupported_method method :
  supported method = false ->
  String.eqb method "bria" = false /\ String.eqb method "inspyrenet" = false /\
  in_list method rembg_models = false.
Proof.
  unfold supported. intros H.
  apply orb_false_iff in H as [H1 H3].
  apply orb_false_iff in H1 as [H1 H2]. auto.
Qed.

(** [process_frame] opens the frame before it looks at the method: for
    a method it does not know, what it raises is the image library's
    error when the frame cannot be opened and [ValueError] otherwise;
    no model has been called and the state is untouched. *)
Lemma process_frame_refuses w video_id method f p a bytes :
  supported method = false ->
  job_dir (disk (glob a)) video_id ≫= (fun d => d !! f) = Some bytes ->
  process_frame w video_id f p method a
  = (a, Raised match w_image_open w bytes with
               | inl _ => Exn "ValueError" "Invalid method"
               | inr e => e
               end).
Proof.
  intros Hu Hread. destruct (unsupported_method method Hu) as (H1 & H2 & H3).
  unfold process_frame. rewrite H1, H2, H3.
  unfold bind, read_frame. rewrite Hread.
  destruct (w_image_open w bytes); reflexivity.
Qed.

(** The first of the frame files is in the job's directory. *)
Lemma first_frame_stored w video_id fs f rest :
  frame_names w video_id fs = f :: rest ->
  exists bytes,
    job_dir (extracted_disk w video_id fs) video_id ≫= (fun d => d !! f) = Some bytes.
Proof.
  intros Hfn. destruct (job_dir_extracted w video_id fs) as [d Hd].
  destruct (frame_names_in_dir w video_id fs d f Hd) as [bytes Hb].
  { rewrite Hfn. left. }
  exists bytes. rewrite Hd. exact Hb.
Qed.

(** C6, the counterexample -- a job with the unknown method ["foo"]:
    the probe and the extraction both run, and the registry is written
    three times, before the first frame is refused. *)
Lemma unknown_method_after_two_stages :
  supported "foo" = false /\
  log (process_video two_frames j1_path "foo" "j1" idle).1 =
    [EvStatus "j1" (processing (VInt 0) "Initializing");
     EvExec (frame_count_command j1_path);
     EvStatus "j1" (processing (VInt 0) "Extracting frames");
     EvExec (extract_command j1_path "temp_videos/frames/j1");
     EvStatus "j1" (processing (VInt 0) "Removing background");
     EvStatus "j1" (error "Invalid method")].
Proof. split; vm_compute; reflexivity. Qed.

(** C6, as amended -- [process_video] has no test of the method of its
    own.  For a method outside the supported set, when the probe exits
    with code 0 and prints a count of at most 250, the frame directory
    can be created and the extraction exits with code 0 and leaves at
    least one [.png] file, both stages have run and the registry has
    been written three times before the method is looked at, in
    [process_frame], on the first frame in the order of the file names.
    There the frame is opened first: if it opens, [ValueError] is raised
    and the job ends with [status = error], message ["Invalid method"];
    if it does not, the job ends with [status = error] and the text of
    the image library's error as message.  In both cases no
    segmentation model has been called, no exception leaves
    [process_video], and the frame directory is gone. *)
Theorem unknown_method_rejected_at_first_frame
    w video_path method video_id s out err n out' err' f rest :
  supported method = false ->
  w_probe w = Exited 0 (Text out) err ->
  py_int (Py.strip out) = inl n ->
  n <= 250 ->
  w_makedirs w = None ->
  w_extract w = Exited 0 out' err' ->
  frame_names w video_id (disk s) = f :: rest ->
  exists bytes,
    job_dir (extracted_disk w video_id (disk s)) video_id ≫= (fun d => d !! f) = Some bytes /\
    let message := match w_image_open w bytes with
                   | inl _ => "Invalid method"
                   | inr e => str_exn e
                   end in
    let r := process_video w video_path method video_id s in
    r.2 = Normal tt /\
    processing_status r.1 !! video_id = Some (error message) /\
    job_dir (disk r.1) video_id = None /\
    log r.1 =
      (log s ++
       [EvStatus video_id (processing (VInt 0) "Initializing");
        EvExec (frame_count_command video_path);
        EvStatus video_id (processing (VInt 0) "Extracting frames");
        EvExec (extract_command video_path (os_path_join FRAMES_DIR video_id));
        EvStatus video_id (processing (VInt 0) "Removing background");
        EvStatus video_id (error message)])%list.
Proof.
  intros Hu Hprobe Hint Hn Hmk Hextract Hfn.
  destruct (unsupported_method method Hu) as (H1 & H2 & H3).
  destruct (first_frame_stored w video_id (disk s) f rest Hfn) as [bytes Hbytes].
  exists bytes. split; [exact Hbytes |]. cbv zeta.
  assert (Hgt : (n >? 250) = false) by (rewrite Z.gtb_ltb; apply Z.ltb_ge; lia).
  destruct (job_dir_extracted w video_id (disk s)) as [d Hd].
  set (e := match w_image_open w bytes with
            | inl _ => Exn "ValueError" "Invalid method"
            | inr e => e
            end).
  assert (Hmsg : match w_image_open w bytes with
                 | inl _ => "Invalid method"
                 | inr e => str_exn e
                 end = str_exn e).
  { unfold e. destruct (w_image_open w bytes); reflexivity. }
  rewrite Hmsg.
  assert (Hbody :
    process_video_body w video_path method video_id {| glob := s; frames_dir_var := None |}
    = ({| glob := before_frames w video_path video_id s;
          frames_dir_var := Some (os_path_join FRAMES_DIR video_id) |}, Raised e)).
  { unfold process_video_body. rewrite H2, Hprobe, Hextract.
    do 3 (erewrite bind_normal by reflexivity). cbv iota beta.
    do 2 (erewrite bind_normal by reflexivity).
    rewrite Hint. erewrite bind_normal by reflexivity.
    rewrite Hgt. do 2 (erewrite bind_normal by reflexivity).
    erewrite bind_normal by (unfold os_makedirs; rewrite Hmk; reflexivity).
    do 2 (erewrite bind_normal by reflexivity). cbv iota beta.
    do 3 (erewrite bind_normal by reflexivity).
    match goal with
    | |- _ ?a = _ =>
        change a with (Activation (before_frames w video_path video_id s)
                                  (Some (os_path_join FRAMES_DIR video_id)))
    end.
    assert (Hdisk : disk (before_frames w video_path video_id s)
                    = extracted_disk w video_id (disk s)) by reflexivity.
    erewrite bind_normal
      by (unfold os_listdir; cbn [glob]; rewrite Hdisk, Hd; reflexivity).
    assert (Hnames : sorted (filter (fun f => Py.endswith f ".png" = true)
                               (map fst (map_to_list d))) = f :: rest).
    { unfold frame_names in Hfn. rewrite Hd in Hfn. exact Hfn. }
    rewrite Hnames.
    erewrite bind_normal by reflexivity.
    apply bind_raised. cbn [frame_loop]. apply bind_raised.
    apply process_frame_refuses; [exact Hu |].
    cbn [glob]. rewrite Hdisk. exact Hbytes. }
  unfold process_video, try_except_finally. rewrite Hbody.
  unfold process_video_except. rewrite H2.
  cbv [bind ret set_status on_state modify]. cbn [glob frames_dir_var].
  match goal with
  | |- context [process_video_finally method video_id ?x] =>
      destruct (finally_spec method video_id x) as ([R _ _ L] & Hgone & Hok);
      destruct (process_video_finally method video_id x) as [a3 o3] eqn:Hfin
  end.
  cbn [fst snd glob frames_dir_var] in R, L, Hok, Hgone. cbn [fst snd].
  rewrite Hok.
  - cbn [fst snd]. split; [reflexivity |].
    split; [rewrite R; simpl; apply lookup_insert_eq |].
    split; [apply Hgone; discriminate |].
    rewrite L. simpl. rewrite <- !app_assoc. reflexivity.
  - eexists. reflexivity.
  - exists d. exact Hd.
Qed.

Lemma unknown_method_rejected_at_first_frame_witness :
  supported "foo" = false /\
  frame_names first_frame_broken "j1" (disk idle) = ["frame_00001.png"; "frame_00002.png"] /\
  processing_status (process_video first_frame_broken j1_path "foo" "j1" idle).1 !! "j1"
    = Some (error "cannot identify image file") /\
  processing_status (process_video two_frames j1_path "foo" "j1" idle).1 !! "j1"
    = Some (error "Invalid method").
Proof.
  split; [reflexivity |]. split; [vm_compute; reflexivity |].
  assert (Hn : 2 <= 250) by lia.
  split.
  - destruct (unknown_method_rejected_at_first_frame
      first_frame_broken j1_path "foo" "j1" idle ("2" ++ newline) (Text "") 2 (Text "") (Text "")
      "frame_00001.png" ["frame_00002.png"] eq_refl eq_refl eq_refl Hn eq_refl eq_refl
      ltac:(vm_compute; reflexivity)) as (bytes & Hb & _ & Hr & _).
    vm_compute in Hb. injection Hb as <-. exact Hr.
  - destruct (unknown_method_rejected_at_first_frame
      two_frames j1_path "foo" "j1" idle ("2" ++ newline) (Text "") 2 (Text "") (Text "")
      "frame_00001.png" ["frame_00002.png"] eq_refl eq_refl eq_refl Hn eq_refl eq_refl
      ltac:(vm_compute; reflexivity)) as (bytes & Hb & _ & Hr & _).
    exact Hr.
Defined.

(** ** Status queries after a run *)

Lemma get_status_completed video_id s :
  processing_status s !! video_id
    = Some (completed (os_path_join TEMP_VIDEOS_DIR (output_name video_id))) ->
  get_status video_id s =
    if bool_decide (is_Some (fs_videos (disk s) !! output_name video_id))
    then FileResponse (os_path_join TEMP_VIDEOS_DIR (output_name video_id)) "video/webm"
           ("processed_video_" ++ video_id ++ ".webm")
    else HTTPException 404 "Processed video file not found".
Proof.
  intros Hr. unfold get_status. rewrite Hr.
  change (completed (os_path_join TEMP_VIDEOS_DIR (output_name video_id)) !! "status")
    with (Some (VStr "completed")).
  change (completed (os_path_join TEMP_VIDEOS_DIR (output_name video_id)) !! "output_path")
    with (Some (VStr (os_path_join TEMP_VIDEOS_DIR (output_name video_id)))).
  cbv iota beta. rewrite decide_True by reflexivity. rewrite os_path_exists_output.
  reflexivity.
Qed.



(** X21 -- once a sweep of the retention loop has found the output file
    of a completed job older than ten minutes, a status query for the
    job is answered with 404, "Processed video file not found", while
    the job's completed record is still in the registry. *)
Theorem swept_output_not_found k video_id s :
  processing_status s !! video_id
    = Some (completed (os_path_join TEMP_VIDEOS_DIR (output_name video_id))) ->
  k_vanished k = [] ->
  expired k (output_name video_id) = true ->
  let s' := with_disk (fun fs => (sweep k fs).1) s in
  get_status video_id s' = HTTPException 404 "Processed video file not found" /\
  processing_status s' !! video_id
    = Some (completed (os_path_join TEMP_VIDEOS_DIR (output_name video_id))).
Proof.
  intros Hr Hq Hexp. cbv zeta. split; [| exact Hr].
  rewrite (get_status_completed video_id (with_disk _ s) Hr). simpl.
  rewrite (proj1 (sweep_effect k (disk s) Hq)), Hexp.
  rewrite bool_decide_eq_false_2 by (intros [? ?]; discriminate). reflexivity.
Qed.

Lemma swept_output_not_found_witness :
  let s := (process_video two_frames j1_path "u2net" "j1" idle).1 in
  expired late_wake (output_name "j1") = true /\
  get_status "j1" (with_disk (fun fs => (sweep late_wake fs).1) s)
    = HTTPException 404 "Processed video file not found".
Proof.
  cbv zeta. split; [reflexivity |].
  refine (proj1 (swept_output_not_found late_wake "j1"
                   (process_video two_frames j1_path "u2net" "j1" idle).1 _ eq_refl eq_refl)).
  vm_compute. reflexivity.
Defined.

(** ** From admission to the end of the job *)

(** X22 -- when an upload has been stored and the task scheduled for it
    has run, whatever happened during the run: the registry holds an
    error or a completed record under the identifier given in the
    response, and the uploaded bytes are still stored, unchanged, under
    [input_<id>.mp4]. *)
Theorem admit_then_run w u method s content :
  u_open u = None ->
  u_read u = inl content ->
  exists s1 t,
    remove_background_video u method s
      = (s1, JSON {[ "video_id" := VStr (u_uuid4 u) ]}, [t]) /\
    t_video_id t = u_uuid4 u /\ t_method t = method /\
    let s2 := (run_task w t s1).1 in
    (is_error (u_uuid4 u) s2 \/ is_completed (u_uuid4 u) s2) /\
    fs_videos (disk s2) !! input_name (u_uuid4 u) = Some content.
Proof.
  intros Hopen Hread.
  unfold remove_background_video, remove_background_video_body.
  cbv [bind modify gets of_sum ret raise]. rewrite Hopen, Hread. simpl.
  rewrite exists_after_set_video. simpl.
  eexists. eexists. split; [reflexivity |]. split; [reflexivity |]. split; [reflexivity |].
  unfold run_task. simpl.
  match goal with
  | |- context [process_video w ?p ?m ?v ?s0] =>
      destruct (process_video_summary w p m v s0) as (Hterm & Hvid & _)
  end.
  simpl in Hterm, Hvid. split; [exact Hterm |].
  rewrite Hvid by discriminate. apply lookup_insert_eq.
Qed.

Lemma admit_then_run_witness :
  u_open upload_j1 = None /\ u_read upload_j1 = inl "mp4" /\
  exists s1 t,
    remove_background_video upload_j1 "u2net" fresh_server
      = (s1, JSON {[ "video_id" := VStr "j1" ]}, [t]) /\
    fs_videos (disk (run_task two_frames t s1).1) !! input_name "j1" = Some "mp4".
Proof.
  split; [reflexivity |]. split; [reflexivity |].
  destruct (admit_then_run two_frames upload_j1 "u2net" fresh_server "mp4" eq_refl eq_refl)
    as (s1 & t & Hadm & _ & _ & _ & Hin).
  exists s1, t. split; [exact Hadm | exact Hin].
Defined.
